(** * A shallow embedding of the matching engine, the admin knowledge store and
      the document ingestion of the College Chatbot backend (src/app.py).

    Text is modelled as a list of ASCII characters: the functions below embed
    Python's [str.lower], [str.strip], the [in] operator on strings and the
    regular expressions of the source over that alphabet.  A non-ASCII
    character of the source (the bullet of the built-in answers) is kept as its
    UTF-8 bytes, which are neither letters, digits nor white space there. *)

From Stdlib Require Import Ascii String.
From Stdlib Require Import List Arith Lia Bool ZArith Permutation Sorted.
From Stdlib Require Import Numbers.DecimalString Numbers.DecimalPos.
Import ListNotations.
Set Warnings "-register-all".
Open Scope string_scope.
Open Scope list_scope.

Definition str := list ascii.
Definition s2l (s : string) : str := list_ascii_of_string s.

(** ** Characters *)

Definition chr (n : nat) : ascii := ascii_of_nat n.
Definition nl : ascii := chr 10.
Definition qmark : ascii := chr 63.

Definition in_range (lo hi : nat) (c : ascii) : bool :=
  Nat.leb lo (nat_of_ascii c) && Nat.leb (nat_of_ascii c) hi.

(** the class [[a-zA-Z0-9]] *)
Definition is_alnum (c : ascii) : bool :=
  in_range 97 122 c || in_range 65 90 c || in_range 48 57 c.

(** [str.isspace] on ASCII: \t \n \v \f \r, the separators \x1c-\x1f and space;
    this is also the class [\s] of Python's [re] on [str] patterns *)
Definition is_space (c : ascii) : bool :=
  in_range 9 13 c || in_range 28 32 c.

Definition lower_char (c : ascii) : ascii :=
  if in_range 65 90 c then chr (nat_of_ascii c + 32) else c.

(** [s.lower()] *)
Definition lower (s : str) : str := map lower_char s.

Definition str_eqb (a b : str) : bool :=
  if list_eq_dec ascii_dec a b then true else false.

Fixpoint mem (x : str) (l : list str) : bool :=
  match l with
  | [] => false
  | y :: l' => str_eqb x y || mem x l'
  end.

Definition char_in (c : ascii) (s : str) : bool :=
  existsb (fun d => if ascii_dec c d then true else false) s.

Fixpoint is_prefix (p s : str) : bool :=
  match p, s with
  | [], _ => true
  | _ :: _, [] => false
  | a :: p', b :: s' => (if ascii_dec a b then true else false) && is_prefix p' s'
  end.

(** [k in s] for strings: [k] is a substring of [s] (the empty string always is) *)
Fixpoint substr (k s : str) : bool :=
  is_prefix k s ||
  match s with
  | [] => false
  | _ :: s' => substr k s'
  end.

Fixpoint drop_space (s : str) : str :=
  match s with
  | c :: s' => if is_space c then drop_space s' else s
  | [] => []
  end.

(** [s.strip()] *)
Definition strip (s : str) : str := rev (drop_space (rev (drop_space s))).

(** [s.endswith('?')] *)
Definition ends_with_q (s : str) : bool :=
  match rev s with
  | c :: _ => if ascii_dec c qmark then true else false
  | [] => false
  end.

Fixpoint join (sep : str) (l : list str) : str :=
  match l with
  | [] => []
  | [x] => x
  | x :: l' => x ++ sep ++ join sep l'
  end.

Definition lines (ls : list string) : str := join [nl] (map s2l ls).

(** ** Tokenizer *)

(** [re.findall(r"[a-zA-Z0-9]+", s)]: the maximal runs of letters and digits;
    [cur] holds the run being read, reversed *)
Fixpoint alnum_runs_from (cur : str) (s : str) : list str :=
  match s with
  | [] => match cur with [] => [] | _ => [rev cur] end
  | c :: s' =>
      if is_alnum c then alnum_runs_from (c :: cur) s'
      else match cur with
           | [] => alnum_runs_from [] s'
           | _ => rev cur :: alnum_runs_from [] s'
           end
  end.

Definition findall_alnum (s : str) : list str := alnum_runs_from [] s.

Definition stopwords : list str := map s2l
  ["the";"a";"an";"and";"or";"but";"if";"then";"else";"on";"in";"at";"for";"to";
   "from";"by";"with";"of";"is";"are";"was";"were";"be";"been";"it";"this";"that";
   "these";"those";"as";"about";"into";"over";"under";"after";"before";"between";
   "how";"what";"when";"where";"which";"who";"whom";"why";"can";"do";"does";"did";
   "will";"would";"should";"could";"may";"might";"you";"your";"yours";"we";"our";
   "ours";"they";"their";"theirs";"i";"me";"my";"mine"].

Definition nonempty_list {A} (l : list A) : bool := match l with [] => false | _ => true end.

Definition nonempty (s : str) : bool := match s with [] => false | _ => true end.

(** [CollegeAI._tokenize] *)
Definition tokenize (text : str) : list str :=
  List.filter (fun t => nonempty t && negb (mem t stopwords)) (findall_alnum (lower text)).

(** [set(xs)]: the distinct elements, first occurrence kept *)
Fixpoint uniq (l : list str) : list str :=
  match l with
  | [] => []
  | x :: l' => x :: List.filter (fun y => negb (str_eqb x y)) (uniq l')
  end.

(** [len(a & b)] for two sets *)
Definition inter_card (a b : list str) : nat :=
  length (List.filter (fun x => mem x b) (uniq a)).

(** ** Knowledge entries *)

(** a built-in category of [CollegeAI._load_knowledge_base] *)
Record category := { c_keywords : list str; c_responses : list str }.

(** an admin entry, as normalised by [_load_admin_knowledge], [add_knowledge]
    and [upload_pdf_knowledge] ([source_pdf] only on the last ones) *)
Record entry := {
  e_id : str;
  e_title : str;
  e_keywords : list str;
  e_responses : list str;
  e_created_at : str;
  e_source_pdf : option str
}.

(** the category [admission] *)
Definition kb_admission : category := {|
  c_keywords := map s2l ["admission"; "requirements"; "apply"; "application"; "enroll"; "enrollment"];
  c_responses := [
    lines [
      "Here are the general admission requirements for our college:";
      EmptyString;
      "• High school diploma or equivalent (GED)";
      "• Completed application form with $50 application fee";
      "• Official high school transcripts";
      "• SAT or ACT scores (recommended)";
      "• Personal statement or essay";
      "• Letters of recommendation (2 required)";
      "• Application deadline: March 1st for Fall semester";
      EmptyString;
      "For specific programs, additional requirements may apply. Would you like me to provide details about a particular major or program?"];
    lines [
      "To apply to our college, you'll need:";
      EmptyString;
      "**Required Documents:**";
      "• Application form (online or paper)";
      "• $50 non-refundable application fee";
      "• High school transcripts";
      "• Standardized test scores";
      EmptyString;
      "**Recommended:**";
      "• Personal essay (500-750 words)";
      "• Letters of recommendation";
      "• Resume of activities";
      EmptyString;
      "The application process typically takes 4-6 weeks for review."]
  ] |}.

(** the category [courses] *)
Definition kb_courses : category := {|
  c_keywords := map s2l ["course"; "class"; "major"; "program"; "curriculum"; "syllabus"];
  c_responses := [
    lines [
      "We offer a wide range of courses across various disciplines:";
      EmptyString;
      "**Arts & Humanities:**";
      "• English Literature, Creative Writing, History, Philosophy, Art History";
      EmptyString;
      "**Business & Economics:**";
      "• Business Administration, Marketing, Finance, Economics, Entrepreneurship";
      EmptyString;
      "**Science & Technology:**";
      "• Computer Science, Biology, Chemistry, Physics, Mathematics, Engineering";
      EmptyString;
      "**Social Sciences:**";
      "• Psychology, Sociology, Political Science, Anthropology, Education";
      EmptyString;
      "**Health Sciences:**";
      "• Nursing, Public Health, Nutrition, Exercise Science";
      EmptyString;
      "Each major has specific course requirements and electives. What field interests you most?"];
    lines [
      "Our academic programs are designed to provide comprehensive education:";
      EmptyString;
      "**Undergraduate Programs:**";
      "• Bachelor of Arts (BA)";
      "• Bachelor of Science (BS)";
      "• Bachelor of Business Administration (BBA)";
      EmptyString;
      "**Graduate Programs:**";
      "• Master of Arts (MA)";
      "• Master of Science (MS)";
      "• Master of Business Administration (MBA)";
      EmptyString;
      "**Special Features:**";
      "• Honors Program";
      "• Study Abroad opportunities";
      "• Internship programs";
      "• Research opportunities"]
  ] |}.

(** the category [financial_aid] *)
Definition kb_financial_aid : category := {|
  c_keywords := map s2l ["financial"; "aid"; "scholarship"; "cost"; "tuition"; "fee"; "money"; "payment"];
  c_responses := [
    lines [
      "We're committed to making education affordable! Here's information about financial aid:";
      EmptyString;
      "**Tuition & Fees:**";
      "• Full-time tuition: $12,500 per semester";
      "• Room & board: $8,000 per semester";
      "• Books & supplies: ~$1,200 per semester";
      EmptyString;
      "**Financial Aid Options:**";
      "• Federal Pell Grants (up to $6,895/year)";
      "• Federal Direct Loans";
      "• Work-study programs";
      "• Institutional scholarships";
      "• State grants";
      EmptyString;
      "**Application Process:**";
      "1. Complete FAFSA (Free Application for Federal Student Aid)";
      "2. Submit by March 1st priority deadline";
      "3. Review your financial aid package";
      "4. Accept/decline offers";
      EmptyString;
      "Our financial aid office can help you explore all options. Would you like me to connect you with them?"];
    lines [
      "Understanding college costs is important! Here's a breakdown:";
      EmptyString;
      "**Annual Costs (Full-time):**";
      "• Tuition: $25,000";
      "• Room & Board: $16,000";
      "• Books & Supplies: $2,400";
      "• Personal Expenses: $3,000";
      "• **Total: ~$46,400/year**";
      EmptyString;
      "**Ways to Reduce Costs:**";
      "• Apply for scholarships early";
      "• Consider community college for first 2 years";
      "• Live off-campus (may be cheaper)";
      "• Buy used textbooks";
      "• Apply for work-study positions"]
  ] |}.

(** the category [library] *)
Definition kb_library : category := {|
  c_keywords := map s2l ["library"; "hours"; "study"; "book"; "resource"; "research"];
  c_responses := [
    lines [
      "Our library is a great place to study! Here are the current hours:";
      EmptyString;
      "**Main Library Hours:**";
      "• Monday-Thursday: 7:00 AM - 11:00 PM";
      "• Friday: 7:00 AM - 8:00 PM";
      "• Saturday: 9:00 AM - 6:00 PM";
      "• Sunday: 12:00 PM - 11:00 PM";
      EmptyString;
      "**Special Collections:**";
      "• Rare Books Room: By appointment only";
      "• Media Center: Same as main library";
      "• Study Rooms: Available for 2-hour reservations";
      EmptyString;
      "**Extended Hours During Finals:**";
      "• Open 24/7 during final exam week";
      "• Coffee cart available in evenings";
      EmptyString;
      "The library also offers online resources accessible 24/7 from anywhere!"];
    lines [
      "The library provides comprehensive academic support:";
      EmptyString;
      "**Physical Resources:**";
      "• 500,000+ books and journals";
      "• 50+ study rooms";
      "• Computer workstations";
      "• Printing services (100 free pages/semester)";
      EmptyString;
      "**Online Resources:**";
      "• E-books and databases";
      "• Research guides";
      "• Citation tools";
      "• 24/7 chat support";
      EmptyString;
      "**Services:**";
      "• Research consultations";
      "• Interlibrary loan";
      "• Course reserves";
      "• Technology help"]
  ] |}.

(** the category [campus_services] *)
Definition kb_campus_services : category := {|
  c_keywords := map s2l ["campus"; "service"; "facility"; "center"; "office"; "help"];
  c_responses := [
    lines [
      "We have comprehensive campus services to support your academic and personal success:";
      EmptyString;
      "**Academic Support Services:**";
      "• **Writing Center** (Mon-Fri, 9 AM-5 PM, Library 2nd Floor)";
      "  - One-on-one writing consultations";
      "  - Essay and research paper assistance";
      "  - Citation and formatting help";
      "  - Online appointment booking available";
      EmptyString;
      "• **Math Lab** (Mon-Thu, 10 AM-8 PM, Science Building Room 105)";
      "  - Drop-in tutoring for all math levels";
      "  - Calculus, statistics, and algebra support";
      "  - Practice exams and study materials";
      "  - Group study sessions available";
      EmptyString;
      "**Health & Wellness Services:**";
      "• **Student Health Center** (Mon-Fri, 8 AM-5 PM, Wellness Building)";
      "• **Counseling Services** (confidential, free, 24/7 crisis hotline)";
      "• **Fitness Center** (6 AM-11 PM daily, Recreation Center)";
      "• **Recreation Center** (7 AM-12 AM daily)";
      EmptyString;
      "**Student Life Services:**";
      "• **Student Union** (7 AM-12 AM daily, Main Campus)";
      "• **Career Services** (Mon-Fri, 9 AM-5 PM, Career Center)";
      "• **International Student Office** (Mon-Fri, 8 AM-5 PM)";
      "• **Disability Services** (Mon-Fri, 8 AM-5 PM)";
      EmptyString;
      "What specific service would you like more information about?"];
    lines [
      "Our campus is designed to meet all your needs:";
      EmptyString;
      "**Learning Spaces:**";
      "• Modern classrooms with smart technology";
      "• Collaborative study areas";
      "• Quiet study zones";
      "• Outdoor learning spaces";
      EmptyString;
      "**Wellness Facilities:**";
      "• Olympic-size swimming pool";
      "• Fitness center with personal trainers";
      "• Meditation garden";
      "• Health clinic with pharmacy";
      EmptyString;
      "**Student Support:**";
      "• 24/7 campus security";
      "• Emergency response team";
      "• Lost and found office";
      "• Information desk"]
  ] |}.

(** the category [student_life] *)
Definition kb_student_life : category := {|
  c_keywords := map s2l ["student life"; "club"; "activity"; "event"; "organization"; "social"];
  c_responses := [
    lines [
      "Campus life is vibrant and engaging! Here's everything you need to know about getting involved:";
      EmptyString;
      "**Student Organizations (100+ Active Clubs):**";
      "• **Academic & Professional Clubs:**";
      "  - Math Club (meets Wednesdays, 6 PM, Science Building)";
      "  - Science Society (monthly meetings, research presentations)";
      "  - Business Students Association (networking events, guest speakers)";
      "  - Pre-Med Society (MCAT prep, medical school visits)";
      "  - Engineering Club (robotics competitions, industry tours)";
      EmptyString;
      "**Cultural & International Organizations:**";
      "• International Student Association (cultural nights, language exchange)";
      "• Black Student Union (advocacy, cultural celebrations)";
      "• Latinx Student Association (heritage month events)";
      "• Asian Student Alliance (cultural festivals, mentorship)";
      "• LGBTQ+ Student Union (support groups, awareness events)";
      EmptyString;
      "**Major Campus Events & Traditions:**";
      "• **August:** Welcome Week (orientation, club fair, welcome concert)";
      "• **October:** Homecoming Week (alumni reunions, football game, parade)";
      "• **November:** International Education Week (cultural performances, study abroad info)";
      "• **February:** Black History Month (guest speakers, cultural celebrations)";
      "• **March:** Women's History Month (leadership conferences, career development)";
      "• **April:** Spring Festival (live music, food trucks, talent shows)";
      EmptyString;
      "**Recreation & Sports:**";
      "• Intramural sports (year-round leagues)";
      "• Outdoor adventure program (hiking, camping, rock climbing)";
      "• Fitness classes (50+ weekly options)";
      "• Entertainment (movie nights, karaoke, game tournaments)";
      EmptyString;
      "Getting involved is a great way to make friends and build your resume!"];
    lines [
      "There's never a dull moment on campus!";
      EmptyString;
      "**Weekly Activities:**";
      "• Monday: Movie Night";
      "• Tuesday: Trivia Night";
      "• Wednesday: Wellness Wednesday";
      "• Thursday: Live Music";
      "• Friday: Game Night";
      "• Weekend: Outdoor adventures";
      EmptyString;
      "**Special Programs:**";
      "• Leadership development workshops";
      "• Career networking events";
      "• Cultural heritage celebrations";
      "• Community service projects";
      EmptyString;
      "**Athletics:**";
      "• Varsity sports teams";
      "• Club sports";
      "• Intramural leagues";
      "• Fitness challenges"]
  ] |}.

(** the category [technical_support] *)
Definition kb_technical_support : category := {|
  c_keywords := map s2l ["technical"; "computer"; "software"; "wifi"; "internet"; "technology"; "it"];
  c_responses := [
    lines [
      "Need tech help? We've got comprehensive IT support to keep you connected and productive:";
      EmptyString;
      "**IT Support Services (24/7 Availability):**";
      "• **Help Desk Hotline:** (555) 123-4567";
      "• **Email Support:** helpdesk@college.edu";
      "• **Live Chat:** Available on college website and student portal";
      "• **Walk-in Support:** Tech Support Building (Mon-Fri, 8 AM-8 PM)";
      "• **Emergency Support:** After-hours critical issues only";
      EmptyString;
      "**Network & WiFi Support:**";
      "• **WiFi Connection:** Network: 'College_Network', Username: Your student ID";
      "• **WiFi Coverage:** All academic buildings, residence halls, outdoor spaces";
      "• **Common Issues:** Restart device, check credentials, move closer to access points";
      EmptyString;
      "**Software & Applications:**";
      "• **Free Software:** Microsoft Office 365, Adobe Creative Suite, SPSS, MATLAB";
      "• **Installation:** Download from student portal, guides available, remote support";
      EmptyString;
      "**Computer Labs & Equipment:**";
      "• **Main Library:** 50+ Windows workstations, printing, scanning";
      "• **Science Building:** 30 specialized computers, scientific software";
      "• **Business School:** 25 financial modeling workstations, Bloomberg Terminal";
      "• **Arts Center:** 20 Mac workstations, Adobe Suite, video editing tools";
      EmptyString;
      "What specific technical issue are you experiencing? I can provide step-by-step solutions."];
    lines [
      "Technology is essential for modern education:";
      EmptyString;
      "**Available Software:**";
      "• Microsoft Office 365 (free)";
      "• Adobe Creative Suite";
      "• Statistical analysis tools";
      "• Programming environments";
      EmptyString;
      "**Online Platforms:**";
      "• Learning Management System";
      "• Student portal";
      "• Library databases";
      "• Career services platform";
      EmptyString;
      "**Support Channels:**";
      "• In-person help desk";
      "• Remote desktop support";
      "• Video tutorials";
      "• Knowledge base articles"]
  ] |}.

(** the category [academic_calendar] *)
Definition kb_academic_calendar : category := {|
  c_keywords := map s2l ["calendar"; "deadline"; "exam"; "break"; "holiday"; "schedule"];
  c_responses := [
    lines [
      "Here's the comprehensive academic calendar for the 2024-2025 academic year:";
      EmptyString;
      "**Fall Semester 2024 (August 26 - December 20):**";
      "• **August 26** - Classes begin";
      "• **August 26-September 6** - Add/Drop period (100% refund)";
      "• **September 2** - Labor Day (no classes, campus closed)";
      "• **September 9-13** - Late registration period (50% refund)";
      "• **October 14-15** - Fall Break (no classes)";
      "• **October 21** - Midterm grades due";
      "• **November 27-29** - Thanksgiving Break (no classes, campus closed)";
      "• **December 16-20** - Final examinations";
      "• **December 20** - Fall semester ends";
      EmptyString;
      "**Spring Semester 2025 (January 13 - May 10):**";
      "• **January 13** - Classes begin";
      "• **January 13-24** - Add/Drop period (100% refund)";
      "• **January 20** - Martin Luther King Day (no classes)";
      "• **March 10-14** - Spring Break (no classes)";
      "• **May 5-9** - Final examinations";
      "• **May 10** - Spring semester ends & Commencement";
      EmptyString;
      "**Important Academic Deadlines:**";
      "• **Graduation Application:** Fall (July 1st), Spring (March 1st), Summer (April 1st)";
      "• **Financial Aid:** FAFSA priority deadline March 1st";
      "• **Housing:** Fall application May 1st, Spring application November 1st";
      "• **Registration:** Priority registration April (Fall), November (Spring)";
      EmptyString;
      "Need specific dates for your program, major requirements, or other academic information?"];
    lines [
      "Stay organized with our academic calendar:";
      EmptyString;
      "**Registration Periods:**";
      "• Fall registration: April 1-30";
      "• Spring registration: November 1-30";
      "• Summer registration: March 1-31";
      EmptyString;
      "**Academic Deadlines:**";
      "• Course withdrawal: 75% of semester";
      "• Grade change requests: 30 days after grades posted";
      "• Incomplete grade completion: Next semester";
      "• Academic appeal: 10 business days";
      EmptyString;
      "**Special Events:**";
      "• Academic advising week";
      "• Career fair";
      "• Research symposium";
      "• Honors convocation"]
  ] |}.

(** the category [housing] *)
Definition kb_housing : category := {|
  c_keywords := map s2l ["housing"; "dorm"; "residence"; "room"; "accommodation"; "living"; "apartment"];
  c_responses := [
    lines [
      "We offer excellent on-campus housing options for students:";
      EmptyString;
      "**Residence Halls:**";
      "• Traditional dorms: $4,500/semester";
      "• Suite-style: $5,200/semester";
      "• Apartment-style: $6,000/semester";
      EmptyString;
      "**Amenities Included:**";
      "• High-speed WiFi";
      "• Laundry facilities";
      "• Study lounges";
      "• 24/7 security";
      "• Meal plan options";
      EmptyString;
      "**Application Process:**";
      "1. Submit housing application by May 1st";
      "2. Pay $200 housing deposit";
      "3. Room selection in June";
      "4. Move-in day: August 24th";
      EmptyString;
      "Would you like information about specific residence halls or off-campus options?"];
    lines [
      "Our housing options are designed for student success:";
      EmptyString;
      "**Living Learning Communities:**";
      "• Honors Hall - Academic focus";
      "• Global Village - International students";
      "• STEM House - Science & engineering";
      "• Arts Collective - Creative students";
      EmptyString;
      "**Off-Campus Resources:**";
      "• Approved apartment complexes";
      "• Homestay programs";
      "• Commuter parking permits";
      "• Shuttle service to campus";
      EmptyString;
      "**Housing Office Contact:**";
      "• Phone: (555) 123-4568";
      "• Email: housing@college.edu";
      "• Office: Student Center, Room 201"]
  ] |}.

(** the category [parking] *)
Definition kb_parking : category := {|
  c_keywords := map s2l ["parking"; "car"; "vehicle"; "transportation"; "commute"; "shuttle"; "bus"];
  c_responses := [
    lines [
      "Here's everything you need to know about parking and transportation:";
      EmptyString;
      "**Student Parking Permits:**";
      "• Annual permit: $300";
      "• Semester permit: $180";
      "• Daily parking: $5/day";
      EmptyString;
      "**Parking Lots:**";
      "• North Campus: 500 spaces";
      "• South Campus: 300 spaces";
      "• East Campus: 200 spaces";
      "• Visitor parking: 50 spaces";
      EmptyString;
      "**Free Shuttle Service:**";
      "• Runs every 15 minutes";
      "• 7:00 AM - 11:00 PM daily";
      "• Connects all campus areas";
      "• Real-time tracking app available";
      EmptyString;
      "**Alternative Transportation:**";
      "• City bus routes (free with student ID)";
      "• Bike share program";
      "• Carpool matching service";
      EmptyString;
      "Need help with permit application or shuttle routes?"]
  ] |}.

Definition knowledge_base : list (str * category) :=
  [ (s2l "admission", kb_admission)
  ; (s2l "courses", kb_courses)
  ; (s2l "financial_aid", kb_financial_aid)
  ; (s2l "library", kb_library)
  ; (s2l "campus_services", kb_campus_services)
  ; (s2l "student_life", kb_student_life)
  ; (s2l "technical_support", kb_technical_support)
  ; (s2l "academic_calendar", kb_academic_calendar)
  ; (s2l "housing", kb_housing)
  ; (s2l "parking", kb_parking) ].

(** the three answers of [CollegeAI._get_default_response] *)
Definition default_responses : list str := [
    lines [
      "Thank you for your question! I'm here to help with college-related inquiries.";
      EmptyString;
      "I can assist with:";
      "• Admission requirements and applications";
      "• Course information and academic programs";
      "• Financial aid and scholarships";
      "• Campus services and facilities";
      "• Student life and activities";
      "• Technical support";
      "• Academic calendar and deadlines";
      EmptyString;
      "Could you please rephrase your question or ask about something specific? I want to make sure I provide you with the most helpful information."];
    lines [
      "I appreciate your question! While I'm designed to help with college-related topics, I want to make sure I understand exactly what you need.";
      EmptyString;
      "Try asking about:";
      "• How to apply to college";
      "• What courses are available";
      "• How much does college cost";
      "• What services are available on campus";
      "• When are important deadlines";
      EmptyString;
      "Or feel free to ask your question in a different way!"];
    lines [
      "I'm here to help with college questions! Sometimes I need a bit more context to provide the best answer.";
      EmptyString;
      "You can ask me about:";
      "• Academic programs and requirements";
      "• Financial aid and costs";
      "• Campus life and activities";
      "• Student services and support";
      "• Important dates and deadlines";
      EmptyString;
      "What would you like to know more about?"]
  ].

(** ** Scorer *)

Definition count_true {A} (p : A -> bool) (l : list A) : nat := length (List.filter p l).

(** [" \n ".join(xs)] separator *)
Definition sample_sep : str := [chr 32; nl; chr 32].

(** [CollegeAI._score_entry_match] *)
Definition score_entry_match (user_message_lower : str) (user_tokens : list str) (e : entry) : nat :=
  let keywords := e_keywords e in
  (* 1) exact keyword presence, [k and k in user_message_lower] *)
  let keyword_hits := count_true (fun k => nonempty k && substr k user_message_lower) keywords in
  let score := keyword_hits * 3 in
  (* 2) token overlap with keywords *)
  let keyword_tokens := uniq (flat_map tokenize keywords) in
  let score := score + Nat.min (inter_card user_tokens keyword_tokens) 4 in
  (* 3) token overlap with the title *)
  let title_tokens := uniq (tokenize (e_title e)) in
  let score := score + Nat.min (inter_card user_tokens title_tokens) 2 in
  (* 4) overlap with the first two responses *)
  let sample := join sample_sep (firstn 2 (e_responses e)) in
  let resp_tokens := uniq (tokenize sample) in
  score + Nat.min (inter_card user_tokens resp_tokens) 5.

(** the score of a built-in category: [sum(1 for keyword in data['keywords'] if keyword in user_message_lower)] *)
Definition score_category (user_message_lower : str) (c : category) : nat :=
  count_true (fun k => substr k user_message_lower) (c_keywords c).

(** ** Ranker: the loop [if score > best_score: best_score = score; best = x],
    started from [best = None], [best_score = 0] *)
Definition rank_step {A} (score : A -> nat) (acc : option A * nat) (x : A) : option A * nat :=
  let s := score x in
  if Nat.ltb (snd acc) s then (Some x, s) else acc.

Definition rank {A} (score : A -> nat) (l : list A) : option A * nat :=
  fold_left (rank_step score) l (None, 0).

(** ** Response selector *)

(** [random.choice(xs)], the random draw made explicit as an index [r] *)
Definition choice (r : nat) (xs : list str) : str := nth (r mod length xs) xs [].

Definition follow_up : str := [nl; nl] ++ s2l "Is there anything else you'd like to know?".

Inductive turn := User (msg : str) | Bot (msg : str).

(** the state of [CollegeAI] the selector reads and writes *)
Record college_ai := {
  knowledge_base_of : list (str * category);
  admin_knowledge : list entry;
  conversation_history : list turn
}.

Definition set_history (st : college_ai) (h : list turn) : college_ai :=
  {| knowledge_base_of := knowledge_base_of st; admin_knowledge := admin_knowledge st;
     conversation_history := h |}.

(** personalisation of the admin branch:
    [if '?' in user_message and response and not response.strip().endswith('?')] *)
Definition personalize_admin (user_message response : str) : str :=
  if char_in qmark user_message && nonempty response && negb (ends_with_q (strip response))
  then response ++ follow_up else response.

(** personalisation of the built-in branch: [if '?' in user_message] *)
Definition personalize_builtin (user_message response : str) : str :=
  if char_in qmark user_message then response ++ follow_up else response.

(** [_get_default_response] *)
Definition get_default_response (r : nat) (user_message : str) : str :=
  choice r default_responses.

(** the admin winner when the guard [best_admin and best_admin_score > 0 and
    best_admin.get('responses')] holds *)
Definition admin_pick (st : college_ai) (user_message : str) : option entry :=
  let user_message_lower := lower user_message in
  let user_tokens := uniq (tokenize user_message) in
  match rank (score_entry_match user_message_lower user_tokens) (admin_knowledge st) with
  | (Some e, s) => if Nat.ltb 0 s && nonempty_list (e_responses e) then Some e else None
  | (None, _) => None
  end.

(** the built-in winner when [best_match and highest_score > 0] holds *)
Definition builtin_pick (st : college_ai) (user_message : str) : option (str * category) :=
  match rank (fun nc => score_category (lower user_message) (snd nc)) (knowledge_base_of st) with
  | (Some (name, c), s) => if nonempty name && Nat.ltb 0 s then Some (name, c) else None
  | (None, _) => None
  end.

(** [CollegeAI.get_response]; [r] is the outcome of the random draw *)
Definition get_response (r : nat) (user_message : str) (st : college_ai) : str * college_ai :=
  let h := conversation_history st ++ [User user_message] in
  match admin_pick st user_message with
  | Some e =>
      let response := personalize_admin user_message (choice r (e_responses e)) in
      (response, set_history st (h ++ [Bot response]))
  | None =>
      let response :=
        match builtin_pick st user_message with
        | Some (_, c) => personalize_builtin user_message (choice r (c_responses c))
        | None => get_default_response r user_message
        end in
      (response, set_history st (h ++ [Bot response]))
  end.

(** the [source] metadata of an admin answer *)
Record admin_source := { src_id : str; src_title : str; src_pdf : option str }.

(** [CollegeAI.get_response_with_meta] *)
Definition get_response_with_meta (r : nat) (user_message : str) (st : college_ai)
  : (str * option admin_source) * college_ai :=
  match admin_pick st user_message with
  | Some e =>
      let text := personalize_admin user_message (choice r (e_responses e)) in
      ((text, Some {| src_id := e_id e; src_title := e_title e; src_pdf := e_source_pdf e |}),
       set_history st (conversation_history st ++ [User user_message; Bot text]))
  | None =>
      let (text, st') := get_response r user_message st in ((text, None), st')
  end.

(** ** Readings of the spec *)

(** the four signals of the scorer, read off the spec (§4.2) with the sets of
    tokens written as lists *)
Definition token_signals (q : str) (e : entry) : nat :=
  let qt := tokenize q in
  Nat.min (inter_card qt (flat_map tokenize (e_keywords e))) 4
  + Nat.min (inter_card qt (tokenize (e_title e))) 2
  + Nat.min (inter_card qt (flat_map tokenize (firstn 2 (e_responses e)))) 5.

(** ** Witness inputs *)

Definition mk_entry (id title : string) (kws resps : list str) : entry :=
  {| e_id := s2l id; e_title := s2l title; e_keywords := kws; e_responses := resps;
     e_created_at := s2l "2024-01-01T00:00:00"; e_source_pdf := None |}.


(** C2 as the claim reads: every keyword that is a substring of the lowercased
    query earns 3 points, the empty keyword included. *)
Definition spec_score_literal (q : str) (e : entry) : nat :=
  3 * count_true (fun k => substr k (lower q)) (e_keywords e) + token_signals q e.

(** the response drawn before personalisation, in whichever branch answers *)
Definition chosen_response (r : nat) (user_message : str) (st : college_ai) : str :=
  match admin_pick st user_message with
  | Some e => choice r (e_responses e)
  | None =>
      match builtin_pick st user_message with
      | Some (_, c) => choice r (c_responses c)
      | None => get_default_response r user_message
      end
  end.

Definition lib_entry : entry :=
  mk_entry "e-lib" "Library" [s2l "library"] [s2l "The library opens at 8."].

Definition lib_entry_no_responses : entry :=
  mk_entry "e-lib" "Library" [s2l "library"] [].

Definition ai_with (admin : list entry) : college_ai :=
  {| knowledge_base_of := knowledge_base; admin_knowledge := admin; conversation_history := [] |}.

Definition fee_entry (kws : list str) : entry :=
  mk_entry "e-fee" "Custom" kws [s2l "ok"].

(** ** JSON values and Python's [str] *)

(** a parsed JSON value (numbers are modelled as integers) *)
Inductive json :=
| JNull
| JBool (b : bool)
| JInt (z : Z)
| JStr (s : str)
| JArr (xs : list json)
| JObj (kv : list (str * json)).

(** Python truthiness of a JSON value *)
Definition truthy (v : json) : bool :=
  match v with
  | JNull => false
  | JBool b => b
  | JInt z => negb (Z.eqb z 0)
  | JStr s => nonempty s
  | JArr xs => nonempty_list xs
  | JObj kv => nonempty_list kv
  end.

Definition hex_digit (n : nat) : ascii :=
  if Nat.ltb n 10 then chr (48 + n) else chr (87 + n).

(** [repr(s)] of a string: single quotes unless [s] holds a single and no
    double quote, backslash escapes for the quote, the backslash, \t \n \r and
    the other control characters *)
Definition repr_str (s : str) : str :=
  let q := if char_in (chr 39) s && negb (char_in (chr 34) s) then chr 34 else chr 39 in
  let esc (c : ascii) : str :=
    if ascii_dec c q then [chr 92; c]
    else if ascii_dec c (chr 92) then [chr 92; chr 92]
    else if ascii_dec c (chr 9) then [chr 92; chr 116]
    else if ascii_dec c (chr 10) then [chr 92; chr 110]
    else if ascii_dec c (chr 13) then [chr 92; chr 114]
    else if Nat.ltb (nat_of_ascii c) 32 || Nat.eqb (nat_of_ascii c) 127 then
      [chr 92; chr 120; hex_digit (nat_of_ascii c / 16); hex_digit (nat_of_ascii c mod 16)]
    else [c] in
  [q] ++ flat_map esc s ++ [q].

Definition int_str (z : Z) : str := s2l (NilEmpty.string_of_int (Z.to_int z)).

(** [repr(v)] of the Python value a JSON value parses to *)
Fixpoint py_repr (v : json) : str :=
  match v with
  | JNull => s2l "None"
  | JBool true => s2l "True"
  | JBool false => s2l "False"
  | JInt z => int_str z
  | JStr s => repr_str s
  | JArr xs => [chr 91] ++ join (s2l ", ") (map py_repr xs) ++ [chr 93]
  | JObj kv =>
      [chr 123] ++ join (s2l ", ") (map (fun '(k, x) => repr_str k ++ s2l ": " ++ py_repr x) kv)
      ++ [chr 125]
  end.

(** [str(v)] *)
Definition py_str (v : json) : str :=
  match v with
  | JStr s => s
  | _ => py_repr v
  end.

(** [d.get(key)] on a JSON object, [None] when the key is absent *)
Fixpoint jget (key : str) (kv : list (str * json)) : option json :=
  match kv with
  | [] => None
  | (k, v) :: kv' => if str_eqb k key then Some v else jget key kv'
  end.

(** [x is None] for the result of [d.get(key)] *)
Definition is_none (o : option json) : bool :=
  match o with None | Some JNull => true | _ => false end.

(** [d.get(key) or default] *)
Definition get_or (key : str) (kv : list (str * json)) (default : json) : json :=
  match jget key kv with
  | Some v => if truthy v then v else default
  | None => default
  end.

(** ** The admin knowledge store

    Python keeps [ai_assistant.admin_knowledge] as a list of references to
    dictionaries; [.copy()] copies the list, not the dictionaries.  The model
    keeps the dictionaries in a heap indexed by location, the tier as a list of
    locations, and the content of [knowledge.json] as the list of entries last
    written. *)
Record store := {
  heap : list entry;
  admin_refs : list nat;
  disk : list entry
}.

Definition no_entry : entry :=
  {| e_id := []; e_title := []; e_keywords := []; e_responses := []; e_created_at := [];
     e_source_pdf := None |}.

Definition deref (h : list entry) (refs : list nat) : list entry :=
  map (fun i => nth i h no_entry) refs.

(** the admin tier as the matching engine reads it *)
Definition admin_view (st : store) : list entry := deref (heap st) (admin_refs st).

Fixpoint set_nth {A} (i : nat) (x : A) (l : list A) : list A :=
  match l, i with
  | [], _ => []
  | _ :: l', 0 => x :: l'
  | y :: l', S i' => y :: set_nth i' x l'
  end.

(** [_save_admin_entries(entries)]: [ok] is whether [write_json_file] succeeds;
    the write goes to a temporary file replaced over [knowledge.json], so a
    failed write leaves the file as it was *)
Definition save_admin_entries (ok : bool) (refs : list nat) (st : store) : bool * store :=
  if ok then (true, {| heap := heap st; admin_refs := admin_refs st; disk := deref (heap st) refs |})
  else (false, st).

Definition set_admin (refs : list nat) (st : store) : store :=
  {| heap := heap st; admin_refs := refs; disk := disk st |}.

Inductive reply :=
| R200 (e : option entry)
| R400
| R401
| R404
| R500.

(** [add_knowledge]; [new_id] and [now] stand for [uuid.uuid4()] and
    [datetime.now().isoformat()] *)
Definition add_knowledge (authorized : bool) (body : list (str * json)) (new_id now : str)
  (save_ok : bool) (st : store) : reply * store :=
  if negb authorized then (R401, st) else
  let keywords := get_or (s2l "keywords") body (JArr []) in
  let responses0 := jget (s2l "responses") body in
  let response := jget (s2l "response") body in
  let title := get_or (s2l "title") body (JStr (s2l "Custom")) in
  let responses :=
    if is_none responses0 && negb (is_none response)
    then Some (JArr [match response with Some v => v | None => JNull end])
    else responses0 in
  match keywords with
  | JArr ((_ :: _) as ks) =>
      match responses with
      | Some (JArr ((_ :: _) as rs)) =>
          let e := {| e_id := new_id; e_title := py_str title;
                      e_keywords := map (fun k => lower (py_str k)) ks;
                      e_responses := map py_str rs; e_created_at := now;
                      e_source_pdf := None |} in
          let loc := length (heap st) in
          let st1 := {| heap := heap st ++ [e]; admin_refs := admin_refs st; disk := disk st |} in
          let entries := admin_refs st ++ [loc] in
          match save_admin_entries save_ok entries st1 with
          | (false, st2) => (R500, st2)
          | (true, st2) => (R200 (Some e), set_admin entries st2)
          end
      | _ => (R400, st)
      end
  | _ => (R400, st)
  end.

(** the first location of [refs] whose entry has id [id] *)
Fixpoint find_ref (h : list entry) (id : str) (refs : list nat) : option nat :=
  match refs with
  | [] => None
  | i :: refs' => if str_eqb (e_id (nth i h no_entry)) id then Some i else find_ref h id refs'
  end.

(** the three in-place assignments of [update_knowledge] to [found] *)
Definition update_fields (body : list (str * json)) (e : entry) : entry :=
  let e := match jget (s2l "title") body with
           | Some t => {| e_id := e_id e; e_title := py_str t; e_keywords := e_keywords e;
                          e_responses := e_responses e; e_created_at := e_created_at e;
                          e_source_pdf := e_source_pdf e |}
           | None => e
           end in
  let e := match jget (s2l "keywords") body with
           | Some (JArr ((_ :: _) as ks)) =>
               {| e_id := e_id e; e_title := e_title e;
                  e_keywords := map (fun k => lower (py_str k)) ks;
                  e_responses := e_responses e; e_created_at := e_created_at e;
                  e_source_pdf := e_source_pdf e |}
           | _ => e
           end in
  match jget (s2l "responses") body with
  | Some (JArr ((_ :: _) as rs)) =>
      {| e_id := e_id e; e_title := e_title e; e_keywords := e_keywords e;
         e_responses := map py_str rs; e_created_at := e_created_at e;
         e_source_pdf := e_source_pdf e |}
  | _ => e
  end.

(** [update_knowledge(entry_id)]: [entries] is a shallow copy, so [found] is
    the dictionary the tier itself holds *)
Definition update_knowledge (authorized : bool) (entry_id : str) (body : list (str * json))
  (save_ok : bool) (st : store) : reply * store :=
  if negb authorized then (R401, st) else
  let entries := admin_refs st in
  match find_ref (heap st) entry_id entries with
  | None => (R404, st)
  | Some i =>
      let found := update_fields body (nth i (heap st) no_entry) in
      let st1 := {| heap := set_nth i found (heap st); admin_refs := admin_refs st; disk := disk st |} in
      match save_admin_entries save_ok entries st1 with
      | (false, st2) => (R500, st2)
      | (true, st2) => (R200 (Some found), set_admin entries st2)
      end
  end.

(** [delete_knowledge(entry_id)] *)
Definition delete_knowledge (authorized : bool) (entry_id : str) (save_ok : bool) (st : store)
  : reply * store :=
  if negb authorized then (R401, st) else
  let entries := List.filter (fun i => negb (str_eqb (e_id (nth i (heap st) no_entry)) entry_id))
                             (admin_refs st) in
  if Nat.eqb (length entries) (length (admin_refs st)) then (R404, st) else
  match save_admin_entries save_ok entries st with
  | (false, st2) => (R500, st2)
  | (true, st2) => (R200 None, set_admin entries st2)
  end.

(** [for k in v] over a truthy JSON value: a list yields its items, a string its
    characters, an object its keys; iterating a number or [True] raises
    [TypeError] ([None]) *)
Definition iter_json (v : json) : option (list json) :=
  match v with
  | JArr xs => Some xs
  | JStr s => Some (map (fun c => JStr [c]) s)
  | JObj kv => Some (map (fun '(k, _) => JStr k) kv)
  | JNull => Some []
  | _ => None
  end.

(** [[x for x in xs if isinstance(x, str)]] *)
Definition str_items (xs : list json) : list str :=
  flat_map (fun x => match x with JStr s => [s] | _ => [] end) xs.

(** [entry.get(key) or default] read as a string field; a truthy value of
    another JSON type there is outside the model ([None]) *)
Definition text_field (key : str) (kv : list (str * json)) (default : str) : option str :=
  match get_or key kv (JStr default) with
  | JStr s => Some s
  | _ => None
  end.

(** one iteration of the loop of [_load_admin_knowledge]; [new_id] stands
    for [str(uuid.uuid4())]; [None] when the code raises *)
Definition normalize_entry (new_id now : str) (raw : json) : option entry :=
  match raw with
  | JObj kv =>
      match iter_json (get_or (s2l "keywords") kv (JArr [])) with
      | None => None
      | Some ks =>
          let responses0 := jget (s2l "responses") kv in
          let response := jget (s2l "response") kv in
          let responses :=
            if is_none responses0 && negb (is_none response)
            then Some (JArr [match response with Some v => v | None => JNull end])
            else responses0 in
          let rs := match responses with Some (JArr xs) => xs | _ => [] end in
          match text_field (s2l "id") kv new_id, text_field (s2l "title") kv (s2l "Custom"),
                text_field (s2l "created_at") kv now with
          | Some id, Some title, Some created =>
              Some {| e_id := id; e_title := title;
                      e_keywords := map (fun k => lower (py_str (JStr k))) (str_items ks);
                      e_responses := map (fun r => py_str (JStr r)) (str_items rs);
                      e_created_at := created; e_source_pdf := None |}
          | _, _, _ => None
          end
      end
  | _ => None
  end.

(** [_load_admin_knowledge] on the [entries] list of [knowledge.json];
    [fresh n] is the uuid drawn for the [n]-th entry *)
Fixpoint load_entries (fresh : nat -> str) (now : str) (n : nat) (raws : list json)
  : option (list entry) :=
  match raws with
  | [] => Some []
  | r :: raws' =>
      match normalize_entry (fresh n) now r, load_entries fresh now (S n) raws' with
      | Some e, Some es => Some (e :: es)
      | _, _ => None
      end
  end.

Definition load_admin_knowledge (fresh : nat -> str) (now : str) (raws : list json)
  : option (list entry) := load_entries fresh now 0 raws.

(** the invariant of C10: every keyword is its own lowercase form *)
Definition lower_ok (e : entry) : Prop := Forall (fun k => lower k = k) (e_keywords e).

Definition st_one : store := {| heap := [lib_entry]; admin_refs := [0]; disk := [lib_entry] |}.

(** ** Document ingestion: chunking *)

(** the tail of a match of [\s*\n] at the start of [s]: [\s*] is greedy, so the
    match ends after the last newline of the leading run of white space *)
Fixpoint scan_ws (s : str) (best : option str) : option str :=
  match s with
  | c :: s' =>
      if is_space c then scan_ws s' (if ascii_dec c nl then Some s' else best) else best
  | [] => best
  end.

(** [re.split(r"\n\s*\n", s)] scanning from left to right; [cur] holds the
    current piece, reversed; each step consumes a character, so a fuel of
    [length s + 1] is never exhausted *)
Fixpoint split_from (fuel : nat) (cur : str) (s : str) : list str :=
  match fuel with
  | 0 => [rev cur ++ s]
  | S f =>
      match s with
      | [] => [rev cur]
      | c :: s' =>
          if ascii_dec c nl then
            match scan_ws s' None with
            | Some rest => rev cur :: split_from f [] rest
            | None => split_from f (c :: cur) s'
            end
          else split_from f (c :: cur) s'
      end
  end.

Definition re_split_blank (text : str) : list str := split_from (S (length text)) [] text.

(** the [while start < len(para)] loop: [para[start:start+size]] from [start] *)
Fixpoint slice_loop (size : nat) (fuel : nat) (para : str) (start : nat) : list str :=
  match fuel with
  | 0 => []
  | S f =>
      if Nat.ltb start (length para)
      then firstn size (skipn start para) :: slice_loop size f para (start + size)
      else []
  end.

Definition segments (size : nat) (para : str) : list str := slice_loop size (length para) para 0.

(** [paragraphs] of [chunk_text] *)
Definition paragraphs (text : str) : list str :=
  List.filter nonempty (map strip (re_split_blank text)).

(** [chunk_text(text, size)] *)
Definition chunk_text (text : str) (size : nat) : list str :=
  List.filter nonempty (flat_map (segments size) (paragraphs text)).

(** [re.sub(r"\u0000", "", text)] *)
Definition remove_nul (text : str) : str :=
  List.filter (fun c => negb (Nat.eqb (nat_of_ascii c) 0)) text.

(** [responses = chunk_text(extracted_text, size=800)[:10]] *)
Definition pdf_responses (extracted_text : str) : list str :=
  firstn 10 (chunk_text (remove_nul extracted_text) 800).

(** a separator the pattern [\n\s*\n] matches *)
Definition blank_sep (s : str) : Prop :=
  exists mid, s = nl :: mid ++ [nl] /\ Forall (fun c => is_space c = true) mid.

(** stripped: no white space at either end *)
Definition trimmed (p : str) : Prop :=
  match p with [] => True | c :: _ => is_space c = false end /\
  match rev p with [] => True | c :: _ => is_space c = false end.

(** all segments have [size] characters but the last, which has between 1 and [size] *)
Fixpoint full_but_last (size : nat) (segs : list str) : Prop :=
  match segs with
  | [] => True
  | [x] => 0 < length x <= size
  | x :: segs' => length x = size /\ full_but_last size segs'
  end.

(** the extracted text "Para one.\n\nPara two." *)
Definition two_paragraphs : str := s2l "Para one." ++ [nl; nl] ++ s2l "Para two.".

(** ** Document ingestion: keywords *)

(** [s.split(',')] *)
Fixpoint split_comma_from (cur : str) (s : str) : list str :=
  match s with
  | [] => [rev cur]
  | c :: s' => if ascii_dec c (chr 44) then rev cur :: split_comma_from [] s'
               else split_comma_from (c :: cur) s'
  end.

Definition split_comma (s : str) : list str := split_comma_from [] s.

(** the local [tokenize] of [upload_pdf_knowledge] (no stop words removed) *)
Definition tokenize_plain (text : str) : list str :=
  List.filter nonempty (findall_alnum (lower text)).

(** [s.add(x)] on a set kept in insertion order; the order in which Python
    iterates the set is given separately *)
Definition set_add (x : str) (s : list str) : list str := if mem x s then s else s ++ [x].

(** [s.update(xs)] *)
Definition set_update (xs : list str) (s : list str) : list str := fold_left (fun s x => set_add x s) xs s.

(** [freq[tok] = freq.get(tok, 0) + 1] on a dict kept in insertion order *)
Fixpoint bump (tok : str) (freq : list (str * nat)) : list (str * nat) :=
  match freq with
  | [] => [(tok, 1)]
  | (k, n) :: freq' => if str_eqb k tok then (k, S n) :: freq' else (k, n) :: bump tok freq'
  end.

(** [freq.get(tok, 0)] *)
Fixpoint lookup (tok : str) (freq : list (str * nat)) : nat :=
  match freq with
  | [] => 0
  | (k, n) :: freq' => if str_eqb k tok then n else lookup tok freq'
  end.

(** the tokens the frequency loop counts: longer than 2, not stop words *)
Definition eligible (tok : str) : bool :=
  negb (Nat.leb (length tok) 2 || mem tok stopwords).

(** the frequency loop over [tokenize(extracted_text)] *)
Definition freq_scan (toks : list str) : list (str * nat) :=
  fold_left (fun freq tok => if eligible tok then bump tok freq else freq) toks [].

(** [sorted(items, key=count, reverse=True)]: a stable sort, written as an
    insertion sort that puts an item before the first one of lower or equal
    count *)
Fixpoint insert_desc (x : str * nat) (l : list (str * nat)) : list (str * nat) :=
  match l with
  | [] => [x]
  | y :: l' => if Nat.leb (snd y) (snd x) then x :: l else y :: insert_desc x l'
  end.

Definition sort_desc (l : list (str * nat)) : list (str * nat) := fold_right insert_desc [] l.

(** [[tok for tok, _ in frequent[:10]]] *)
Definition frequent_top (text : str) : list str :=
  map fst (firstn 10 (sort_desc (freq_scan (tokenize_plain text)))).

(** the keyword set before truncation: form keywords, 5 title tokens, the
    frequent tokens *)
Definition base_keywords (title raw_keywords text : str) : list str :=
  let keywords := map (fun k => lower (strip k)) (List.filter (fun k => nonempty (strip k)) (split_comma raw_keywords)) in
  let title_tokens := List.filter (fun t => Nat.ltb 2 (length t)) (tokenize_plain title) in
  let base := set_update (firstn 5 title_tokens) (set_update keywords []) in
  set_update (frequent_top text) base.

(** [keywords = [k for k in list(base_tokens) if k][:25]]; [set_order] is the
    order in which Python iterates the set *)
Definition pdf_keywords (set_order : list str -> list str) (title raw_keywords text : str) : list str :=
  firstn 25 (List.filter nonempty (set_order (base_keywords title raw_keywords text))).

(** [request.form.get('title') or os.path.splitext(filename)[0]] *)
Definition title_of (form_title : option str) (stem : str) : str :=
  match form_title with Some t => if nonempty t then t else stem | None => stem end.

(** [request.form.get('keywords') or ''] *)
Definition raw_keywords_of (form_keywords : option str) : str :=
  match form_keywords with Some k => k | None => [] end.

(** [upload_pdf_knowledge] from the extracted text on; [filename] is the stored
    file name and [stem] its name without extension *)
Definition upload_pdf_knowledge (set_order : list str -> list str) (extracted_text filename stem : str)
  (form_title form_keywords : option str) (new_id now : str) (save_ok : bool) (st : store)
  : reply * store :=
  let text := remove_nul extracted_text in
  let responses := firstn 10 (chunk_text text 800) in
  match responses with
  | [] => (R400, st)
  | _ =>
      let title := title_of form_title stem in
      let raw := raw_keywords_of form_keywords in
      match pdf_keywords set_order title raw text with
      | [] => (R400, st)
      | keywords =>
          let e := {| e_id := new_id; e_title := title; e_keywords := keywords;
                      e_responses := responses; e_created_at := now;
                      e_source_pdf := Some filename |} in
          let loc := length (heap st) in
          let st1 := {| heap := heap st ++ [e]; admin_refs := admin_refs st; disk := disk st |} in
          let entries := admin_refs st ++ [loc] in
          match save_admin_entries save_ok entries st1 with
          | (false, st2) => (R500, st2)
          | (true, st2) => (R200 (Some e), set_admin entries st2)
          end
      end
  end.

(** how many tokens of [freq] beat [t] (count [c]) in the spec's order: an
    earlier token with a count of at least [c], or a later one with more *)
Fixpoint rank_in (freq : list (str * nat)) (t : str) (c : nat) : nat :=
  match freq with
  | [] => 0
  | (u, d) :: freq' =>
      if str_eqb u t then count_true (fun z => Nat.ltb c (snd z)) freq'
      else (if Nat.leb c d then 1 else 0) + rank_in freq' t c
  end.

(** an example document text *)
Definition fee_text : str := s2l "Fees: fees are due. Library hours.".

(** ** Chat endpoint, statistics and history *)

(** the answer of [/api/chat] *)
Inductive chat_reply :=
| ChatOk (reply : str) (source : option admin_source)
| Chat400
| Chat500.

(** [k in data] for the parsed request body; [None] when [in] raises
    [TypeError] (a number or [True]) *)
Definition json_contains (k : str) (data : json) : option bool :=
  match data with
  | JObj kv => Some (match jget k kv with Some _ => true | None => false end)
  | JArr xs => Some (existsb (fun x => match x with JStr s => str_eqb s k | _ => false end) xs)
  | JStr s => Some (substr k s)
  | _ => None
  end.

(** [chat()] on the JSON body [data]; [r] is the outcome of the random draw;
    an exception the handler catches gives 500 *)
Definition chat (r : nat) (data : json) (st : college_ai) : chat_reply * college_ai :=
  if negb (truthy data) then (Chat400, st) else
  match json_contains (s2l "message") data with
  | None => (Chat500, st)
  | Some false => (Chat400, st)
  | Some true =>
      match data with
      | JObj kv =>
          match jget (s2l "message") kv with
          | Some (JStr m) =>
              let user_message := strip m in
              if negb (nonempty user_message) then (Chat400, st) else
              let '((text, source), st') := get_response_with_meta r user_message st in
              (ChatOk text source, st')
          | _ => (Chat500, st)  (* [.strip()] of a value that is not a string *)
          end
      | _ => (Chat500, st)      (* [data['message']] on a list or a string *)
      end
  end.

Definition last_turn (h : list turn) : option turn :=
  match rev h with [] => None | t :: _ => Some t end.

(** [get_stats()]: [total_conversations], and the turn whose timestamp is
    [last_activity] (the model keeps turns without their timestamps) *)
Definition get_stats (st : college_ai) : nat * option turn :=
  (length (conversation_history st) / 2, last_turn (conversation_history st)).

(** [clear_history()] *)
Definition clear_history (st : college_ai) : college_ai := set_history st [].

(** ** Admin authentication *)

(** [ADMIN_TOKEN = os.environ.get('ADMIN_TOKEN', 'changeme')] *)
Definition admin_token_of (env : option str) : str :=
  match env with Some t => t | None => s2l "changeme" end.

(** [_require_admin(req)]: [header] is the [X-Admin-Token] header and [query]
    the [admin_token] query parameter, [None] when absent *)
Definition require_admin (admin_token : str) (header query : option str) : bool :=
  let token := match header with
               | Some h => if nonempty h then Some h else query
               | None => query
               end in
  match token with Some t => str_eqb t admin_token | None => false end.

(** ** Campus locations *)

(** a location dictionary; [id], the coordinates and [created_at] keep the JSON
    value the code stores there *)
Record location := {
  l_id : json;
  l_name : str;
  l_category : str;
  l_description : str;
  l_maps_query : str;
  l_latitude : json;
  l_longitude : json;
  l_created_at : json
}.

Definition no_location : location :=
  {| l_id := JNull; l_name := []; l_category := []; l_description := []; l_maps_query := [];
     l_latitude := JNull; l_longitude := JNull; l_created_at := JNull |}.

(** [d.get(key)], [None] read as JSON [null] *)
Definition get_raw (key : str) (kv : list (str * json)) : json :=
  match jget key kv with Some v => v | None => JNull end.

(** one iteration of the loop of [_load_locations]; [None] when [loc.get]
    raises (an item that is not an object) *)
Definition normalize_location (new_id now : str) (raw : json) : option location :=
  match raw with
  | JObj kv =>
      Some {| l_id := get_or (s2l "id") kv (JStr new_id);
              l_name := py_str (get_or (s2l "name") kv (JStr (s2l "Unnamed Location")));
              l_category := py_str (get_or (s2l "category") kv (JStr (s2l "General")));
              l_description := py_str (get_or (s2l "description") kv (JStr []));
              l_maps_query := py_str (get_or (s2l "maps_query") kv (JStr []));
              l_latitude := get_raw (s2l "latitude") kv;
              l_longitude := get_raw (s2l "longitude") kv;
              l_created_at := get_or (s2l "created_at") kv (JStr now) |}
  | _ => None
  end.

Fixpoint load_locs (fresh : nat -> str) (now : str) (n : nat) (raws : list json)
  : option (list location) :=
  match raws with
  | [] => Some []
  | r :: raws' =>
      match normalize_location (fresh n) now r, load_locs fresh now (S n) raws' with
      | Some l, Some ls => Some (l :: ls)
      | _, _ => None
      end
  end.

(** [_load_locations()] on the content [data] of [locations.json] (a missing
    file reads as [{"locations": []}]); [None] when the code raises *)
Definition load_locations (fresh : nat -> str) (now : str) (data : json) : option (list location) :=
  match data with
  | JObj kv =>
      match iter_json (get_or (s2l "locations") kv (JArr [])) with
      | Some raws => load_locs fresh now 0 raws
      | None => None
      end
  | _ => None
  end.

(** [locations_store] as a list of references to dictionaries, and the
    content of [locations.json] as the list last written *)
Record loc_store := {
  lheap : list location;
  lrefs : list nat;
  ldisk : list location
}.

Definition loc_view (st : loc_store) : list location :=
  map (fun i => nth i (lheap st) no_location) (lrefs st).

(** [_save_locations(locations)]: [ok] is whether [write_json_file] succeeds *)
Definition save_locations (ok : bool) (refs : list nat) (st : loc_store) : bool * loc_store :=
  if ok then (true, {| lheap := lheap st; lrefs := lrefs st;
                       ldisk := map (fun i => nth i (lheap st) no_location) refs |})
  else (false, st).

(** [locations_store.clear(); locations_store.extend(tmp)] *)
Definition set_locs (refs : list nat) (st : loc_store) : loc_store :=
  {| lheap := lheap st; lrefs := refs; ldisk := ldisk st |}.

Inductive loc_reply :=
| L200 (l : option location)
| L400
| L401
| L404
| L500.

(** [to_float_or_none(v)]; [to_float v] is [float(v)], [None] when it raises *)
Definition to_float_or_none (to_float : json -> option json) (v : json) : json :=
  match to_float v with Some f => f | None => JNull end.

(** [add_location()]; [new_id] and [now] stand for [uuid.uuid4()] and
    [datetime.now().isoformat()] *)
Definition add_location (to_float : json -> option json) (authorized : bool)
  (body : list (str * json)) (new_id now : str) (save_ok : bool) (st : loc_store)
  : loc_reply * loc_store :=
  if negb authorized then (L401, st) else
  let name := strip (py_str (get_or (s2l "name") body (JStr []))) in
  if negb (nonempty name) then (L400, st) else
  let e := {| l_id := JStr new_id; l_name := name;
              l_category := py_str (get_or (s2l "category") body (JStr (s2l "General")));
              l_description := py_str (get_or (s2l "description") body (JStr []));
              l_maps_query := py_str (get_or (s2l "maps_query") body (JStr []));
              l_latitude := to_float_or_none to_float (get_raw (s2l "latitude") body);
              l_longitude := to_float_or_none to_float (get_raw (s2l "longitude") body);
              l_created_at := JStr now |} in
  let loc := length (lheap st) in
  let st1 := {| lheap := lheap st ++ [e]; lrefs := lrefs st; ldisk := ldisk st |} in
  let tmp := lrefs st ++ [loc] in
  match save_locations save_ok tmp st1 with
  | (false, st2) => (L500, st2)
  | (true, st2) => (L200 (Some e), set_locs tmp st2)
  end.

(** [loc.get('id') == loc_id] *)
Definition id_is (v : json) (loc_id : str) : bool :=
  match v with JStr s => str_eqb s loc_id | _ => false end.

(** the first location of [refs] whose id is [loc_id] *)
Fixpoint find_loc (h : list location) (loc_id : str) (refs : list nat) : option nat :=
  match refs with
  | [] => None
  | i :: refs' => if id_is (l_id (nth i h no_location)) loc_id then Some i else find_loc h loc_id refs'
  end.

Definition set_l_name (x : str) (l : location) : location :=
  {| l_id := l_id l; l_name := x; l_category := l_category l; l_description := l_description l;
     l_maps_query := l_maps_query l; l_latitude := l_latitude l; l_longitude := l_longitude l;
     l_created_at := l_created_at l |}.
Definition set_l_category (x : str) (l : location) : location :=
  {| l_id := l_id l; l_name := l_name l; l_category := x; l_description := l_description l;
     l_maps_query := l_maps_query l; l_latitude := l_latitude l; l_longitude := l_longitude l;
     l_created_at := l_created_at l |}.
Definition set_l_description (x : str) (l : location) : location :=
  {| l_id := l_id l; l_name := l_name l; l_category := l_category l; l_description := x;
     l_maps_query := l_maps_query l; l_latitude := l_latitude l; l_longitude := l_longitude l;
     l_created_at := l_created_at l |}.
Definition set_l_maps_query (x : str) (l : location) : location :=
  {| l_id := l_id l; l_name := l_name l; l_category := l_category l; l_description := l_description l;
     l_maps_query := x; l_latitude := l_latitude l; l_longitude := l_longitude l;
     l_created_at := l_created_at l |}.
Definition set_l_latitude (x : json) (l : location) : location :=
  {| l_id := l_id l; l_name := l_name l; l_category := l_category l; l_description := l_description l;
     l_maps_query := l_maps_query l; l_latitude := x; l_longitude := l_longitude l;
     l_created_at := l_created_at l |}.
Definition set_l_longitude (x : json) (l : location) : location :=
  {| l_id := l_id l; l_name := l_name l; l_category := l_category l; l_description := l_description l;
     l_maps_query := l_maps_query l; l_latitude := l_latitude l; l_longitude := x;
     l_created_at := l_created_at l |}.

(** [if key in body and body.get(key) is not None: found[key] = str(body[key])] *)
Definition update_text (key : str) (set : str -> location -> location) (body : list (str * json))
  (l : location) : location :=
  match jget key body with
  | Some JNull | None => l
  | Some v => set (py_str v) l
  end.

(** [if key in body: try: found[key] = float(body[key]) if body[key] is not
    None else None except Exception: pass] *)
Definition update_coord (to_float : json -> option json) (key : str)
  (set : json -> location -> location) (body : list (str * json)) (l : location) : location :=
  match jget key body with
  | None => l
  | Some JNull => set JNull l
  | Some v => match to_float v with Some f => set f l | None => l end
  end.

(** the in-place assignments of [update_location] to [found] *)
Definition update_loc_fields (to_float : json -> option json) (body : list (str * json))
  (l : location) : location :=
  let l := match jget (s2l "name") body with
           | Some v => if truthy v && nonempty (strip (py_str v)) then set_l_name (strip (py_str v)) l else l
           | None => l
           end in
  let l := update_text (s2l "category") set_l_category body l in
  let l := update_text (s2l "description") set_l_description body l in
  let l := update_text (s2l "maps_query") set_l_maps_query body l in
  let l := update_coord to_float (s2l "latitude") set_l_latitude body l in
  update_coord to_float (s2l "longitude") set_l_longitude body l.

(** [update_location(loc_id)]: [tmp = list(locations_store)] is a shallow copy,
    so [found] is the dictionary the store itself holds *)
Definition update_location (to_float : json -> option json) (authorized : bool) (loc_id : str)
  (body : list (str * json)) (save_ok : bool) (st : loc_store) : loc_reply * loc_store :=
  if negb authorized then (L401, st) else
  let tmp := lrefs st in
  match find_loc (lheap st) loc_id tmp with
  | None => (L404, st)
  | Some i =>
      let found := update_loc_fields to_float body (nth i (lheap st) no_location) in
      let st1 := {| lheap := set_nth i found (lheap st); lrefs := lrefs st; ldisk := ldisk st |} in
      match save_locations save_ok tmp st1 with
      | (false, st2) => (L500, st2)
      | (true, st2) => (L200 (Some found), set_locs tmp st2)
      end
  end.

(** [delete_location(loc_id)] *)
Definition delete_location (authorized : bool) (loc_id : str) (save_ok : bool) (st : loc_store)
  : loc_reply * loc_store :=
  if negb authorized then (L401, st) else
  let tmp := List.filter (fun i => negb (id_is (l_id (nth i (lheap st) no_location)) loc_id)) (lrefs st) in
  if Nat.eqb (length tmp) (length (lrefs st)) then (L404, st) else
  match save_locations save_ok tmp st with
  | (false, st2) => (L500, st2)
  | (true, st2) => (L200 None, set_locs tmp st2)
  end.

(** ** Reference functions for the statements below *)

(** the list with its first element satisfying [p] replaced by [f] of it *)
Fixpoint replace_first {A} (p : A -> bool) (f : A -> A) (l : list A) : list A :=
  match l with
  | [] => []
  | x :: l' => if p x then f x :: l' else x :: replace_first p f l'
  end.

(** the first location of [refs] whose dictionary satisfies [p] *)
Fixpoint first_ref {A} (d : A) (p : A -> bool) (h : list A) (refs : list nat) : option nat :=
  match refs with
  | [] => None
  | i :: refs' => if p (nth i h d) then Some i else first_ref d p h refs'
  end.

(** a store whose references point into the heap, no two at one dictionary *)
Definition refs_ok (refs : list nat) (n : nat) : Prop :=
  NoDup refs /\ Forall (fun i => i < n) refs.

(** example data *)
Definition hall : location :=
  {| l_id := JStr (s2l "h1"); l_name := s2l "Main Hall"; l_category := s2l "General";
     l_description := []; l_maps_query := []; l_latitude := JNull; l_longitude := JNull;
     l_created_at := JStr (s2l "2024-01-01") |}.

Definition locs_one : loc_store := {| lheap := [hall]; lrefs := [0]; ldisk := [hall] |}.

Definition no_float (v : json) : option json := match v with JInt z => Some (JInt z) | _ => None end.

(** ** The PDF upload request *)

(** the last index of [c] in [s] from position [i] on, or [acc] *)
Fixpoint rfind_from (c : ascii) (i : nat) (s : str) (acc : option nat) : option nat :=
  match s with
  | [] => acc
  | x :: s' => rfind_from c (S i) s' (if ascii_dec x c then Some i else acc)
  end.

(** [s.rfind(c)], [None] for -1 *)
Definition rfind (c : ascii) (s : str) : option nat := rfind_from c 0 s None.

(** [os.path.splitext(p)[0]] (posixpath: the last dot starts the extension
    when it follows the last slash and a non-dot character of the last
    component comes before it) *)
Definition splitext_root (p : str) : str :=
  match rfind "."%char p with
  | None => p
  | Some d =>
      let start := match rfind "/"%char p with Some k => S k | None => 0 end in
      if Nat.leb start d
         && existsb (fun c => negb (if ascii_dec c "."%char then true else false))
                    (firstn (d - start) (skipn start p))
      then firstn d p else p
  end.

(** [s.endswith(suffix)] *)
Definition ends_with (suffix s : str) : bool :=
  Nat.leb (length suffix) (length s) && str_eqb (skipn (length s - length suffix) s) suffix.

(** the route [upload_pdf_knowledge()]:
    - [dir_ok] is whether [ensure_data_dir()] succeeds;
    - [file] is [request.files['file'].filename], [None] when no file was sent
      (a [FileStorage] is falsy exactly when its file name is empty);
    - [secure] is [secure_filename];
    - [file_ok] is whether [file.save(save_path)] succeeds;
    - [pages] is the text of each page ([page.extract_text() or ''], [''] when
      it raises), [None] when opening or reading the PDF raises *)
Definition upload_pdf_request (set_order : list str -> list str) (authorized dir_ok : bool)
  (file : option str) (secure : str -> str) (file_ok : bool) (pages : option (list str))
  (form_title form_keywords : option str) (new_id now : str) (save_ok : bool) (st : store)
  : reply * store :=
  if negb authorized then (R401, st) else
  if negb dir_ok then (R500, st) else
  match file with
  | None => (R400, st)
  | Some fname =>
      if negb (nonempty fname) then (R400, st) else
      if negb (ends_with (s2l ".pdf") (lower fname)) then (R400, st) else
      let filename := secure fname in
      if negb file_ok then (R500, st) else
      match pages with
      | None => (R500, st)
      | Some ps =>
          let extracted_text := join [nl; nl] (List.filter nonempty ps) in
          upload_pdf_knowledge set_order extracted_text filename (splitext_root filename)
            form_title form_keywords new_id now save_ok st
      end
  end.

(** * Proofs *)

(** ** Strings, membership and sets *)

Lemma str_eqb_true (a b : str) : str_eqb a b = true <-> a = b.
Proof. unfold str_eqb; destruct (list_eq_dec ascii_dec a b); split; congruence. Qed.

Lemma str_eqb_false (a b : str) : str_eqb a b = false <-> a <> b.
Proof. unfold str_eqb; destruct (list_eq_dec ascii_dec a b); split; congruence. Qed.

Lemma mem_In (x : str) (l : list str) : mem x l = true <-> In x l.
Proof.
  induction l as [|y l IH]; simpl; [split; [discriminate|contradiction]|].
  rewrite orb_true_iff, IH, str_eqb_true; split; intros [H|H]; auto; left; congruence.
Qed.

Lemma uniq_In (x : str) (l : list str) : In x (uniq l) <-> In x l.
Proof.
  induction l as [|y l IH]; simpl; [tauto|].
  rewrite filter_In, IH, negb_true_iff, str_eqb_false.
  destruct (list_eq_dec ascii_dec y x); subst; split; intros; intuition.
Qed.

Lemma uniq_NoDup (l : list str) : NoDup (uniq l).
Proof.
  induction l as [|y l IH]; simpl; constructor.
  - rewrite filter_In, negb_true_iff, str_eqb_false; intuition.
  - apply NoDup_filter; exact IH.
Qed.

Lemma Permutation_filter_bool {A} (f : A -> bool) (l l' : list A) :
  Permutation l l' -> Permutation (List.filter f l) (List.filter f l').
Proof.
  induction 1; simpl.
  - constructor.
  - destruct (f x); auto.
  - destruct (f x), (f y); try apply perm_swap; auto.
  - eauto using Permutation_trans.
Qed.

(** [len(a & b)] only depends on the elements of [a] and of [b] *)
Lemma inter_card_ext (a a' b b' : list str) :
  (forall x, In x a <-> In x a') -> (forall x, In x b <-> In x b') ->
  inter_card a b = inter_card a' b'.
Proof.
  intros Ha Hb; unfold inter_card.
  rewrite (filter_ext (fun x => mem x b) (fun x => mem x b')).
  - apply Permutation_length, Permutation_filter_bool, NoDup_Permutation;
      try apply uniq_NoDup.
    intro x; rewrite !uniq_In; apply Ha.
  - intro x; destruct (mem x b) eqn:E1, (mem x b') eqn:E2; auto.
    + apply mem_In, Hb, mem_In in E1; congruence.
    + apply mem_In, Hb, mem_In in E2; congruence.
Qed.

(** ** Tokenizer *)

Lemma alnum_runs_sep (c : ascii) (b : str) :
  is_alnum c = false ->
  forall a cur, alnum_runs_from cur (a ++ c :: b) = alnum_runs_from cur a ++ alnum_runs_from [] b.
Proof.
  intros Hc a; induction a as [|d a IH]; intro cur; simpl.
  - rewrite Hc; destruct cur; reflexivity.
  - destruct (is_alnum d); [apply IH|].
    destruct cur; [apply IH|]; simpl; f_equal; apply IH.
Qed.

Lemma tokenize_sample_app (a b : str) :
  tokenize (a ++ sample_sep ++ b) = tokenize a ++ tokenize b.
Proof.
  unfold tokenize, findall_alnum, lower; rewrite map_app.
  simpl map; rewrite (alnum_runs_sep (lower_char (chr 32))) by reflexivity.
  simpl; rewrite filter_app; reflexivity.
Qed.

(** tokenising [" \n ".join(xs)] gives the tokens of each [x] in turn *)
Lemma tokenize_join_sample (l : list str) :
  tokenize (join sample_sep l) = flat_map tokenize l.
Proof.
  induction l as [|x l IH]; [reflexivity|].
  destruct l as [|y l].
  - simpl; rewrite app_nil_r; reflexivity.
  - change (join sample_sep (x :: y :: l)) with (x ++ sample_sep ++ join sample_sep (y :: l)).
    rewrite tokenize_sample_app, IH; reflexivity.
Qed.

(** ** Ranker *)

Lemma rank_snoc {A} (score : A -> nat) (l : list A) (x : A) :
  rank score (l ++ [x]) = rank_step score (rank score l) x.
Proof. unfold rank; rewrite fold_left_app; reflexivity. Qed.

Lemma inter_card_uniq (a b : list str) : inter_card (uniq a) (uniq b) = inter_card a b.
Proof. apply inter_card_ext; intro x; apply uniq_In. Qed.


Lemma score_decomp (q : str) (e : entry) :
  score_entry_match (lower q) (uniq (tokenize q)) e =
  3 * count_true (fun k => nonempty k && substr k (lower q)) (e_keywords e) + token_signals q e.
Proof.
  unfold score_entry_match, token_signals; cbv zeta.
  rewrite tokenize_join_sample, !inter_card_uniq; lia.
Qed.

Lemma count_true_shift (p p' : str -> bool) (k : str) (kws : list str) :
  p k = false -> p' k = true ->
  (forall k', In k' kws -> k' <> k -> p' k' = p k') ->
  count_true p' kws = count_true p kws + count_occ (list_eq_dec ascii_dec) kws k.
Proof.
  intros Hk Hk' Ho; induction kws as [|x kws IH]; [reflexivity|].
  unfold count_true in *; simpl.
  assert (IH' : length (List.filter p' kws) = length (List.filter p kws)
                + count_occ (list_eq_dec ascii_dec) kws k)
    by (apply IH; intros; apply Ho; simpl; auto).
  destruct (list_eq_dec ascii_dec x k) as [->|Hne].
  - rewrite Hk, Hk'; simpl; lia.
  - rewrite (Ho x (or_introl eq_refl) Hne); destruct (p x); simpl; lia.
Qed.

Lemma token_signals_ext (q q' : str) (e : entry) :
  (forall t, In t (tokenize q') <-> In t (tokenize q)) ->
  token_signals q' e = token_signals q e.
Proof.
  intro H; unfold token_signals.
  rewrite !(inter_card_ext (tokenize q') (tokenize q) _ _ H (fun _ => iff_refl _)).
  reflexivity.
Qed.

Lemma rank_spec {A} (score : A -> nat) (l : list A) :
  match rank score l with
  | (None, s) => s = 0 /\ Forall (fun y => score y = 0) l
  | (Some x, s) =>
      s = score x /\ 0 < s /\
      exists pre post, l = pre ++ x :: post /\
        Forall (fun y => score y < s) pre /\ Forall (fun y => score y <= s) post
  end.
Proof.
  induction l as [|x l IH] using rev_ind; [simpl; auto|].
  rewrite rank_snoc; destruct (rank score l) as [[y|] s]; unfold rank_step; simpl.
  - destruct IH as (-> & Hpos & pre & post & -> & Hpre & Hpost).
    destruct (Nat.ltb (score y) (score x)) eqn:Lt.
    + apply Nat.ltb_lt in Lt; split; [reflexivity|]; split; [lia|].
      exists (pre ++ y :: post), []; split; [reflexivity|]; split; [|constructor].
      apply Forall_app; split; [eapply Forall_impl; [|exact Hpre]; simpl; intros; lia|].
      constructor; [lia|]; eapply Forall_impl; [|exact Hpost]; simpl; intros; lia.
    + apply Nat.ltb_ge in Lt; split; [reflexivity|]; split; [exact Hpos|].
      exists pre, (post ++ [x]); rewrite <- app_assoc; split; [reflexivity|].
      split; [exact Hpre|]; apply Forall_app; split; auto.
  - destruct IH as (-> & Hz); destruct (Nat.ltb 0 (score x)) eqn:Lt.
    + apply Nat.ltb_lt in Lt; split; [reflexivity|]; split; [lia|].
      exists l, []; split; [reflexivity|]; split; [|constructor].
      eapply Forall_impl; [|exact Hz]; simpl; intros; lia.
    + apply Nat.ltb_ge in Lt; split; [reflexivity|].
      apply Forall_app; split; auto; constructor; [lia|constructor].
Qed.

Lemma choice_In (r : nat) (l : list str) : l <> [] -> In (choice r l) l.
Proof.
  intro H; unfold choice; apply nth_In, Nat.mod_upper_bound.
  destruct l; [congruence|discriminate].
Qed.

Lemma admin_pick_some (msg : str) (st : college_ai) (e : entry) (s : nat) :
  rank (score_entry_match (lower msg) (uniq (tokenize msg))) (admin_knowledge st) = (Some e, s) ->
  0 < s -> e_responses e <> [] -> admin_pick st msg = Some e.
Proof.
  intros Hr Hs He; unfold admin_pick; rewrite Hr.
  apply Nat.ltb_lt in Hs; rewrite Hs.
  destruct (e_responses e); [congruence|reflexivity].
Qed.

(** ** The admin store *)

Lemma lower_char_idem (c : ascii) : lower_char (lower_char c) = lower_char c.
Proof. destruct c as [[] [] [] [] [] [] [] []]; reflexivity. Qed.

Lemma lower_idem (s : str) : lower (lower s) = lower s.
Proof. unfold lower; rewrite map_map; apply map_ext, lower_char_idem. Qed.

Lemma lower_ok_map {A} (f : A -> str) (ks : list A) :
  Forall (fun k => lower k = k) (map (fun k => lower (f k)) ks).
Proof. apply Forall_forall; intros x Hx; apply in_map_iff in Hx as (k & <- & _); apply lower_idem. Qed.

Lemma Forall_set_nth {A} (P : A -> Prop) (i : nat) (x : A) (l : list A) :
  P x -> Forall P l -> Forall P (set_nth i x l).
Proof.
  intros Hx Hl; revert i; induction Hl as [|y l Hy Hl IH]; intros [|i]; simpl; auto.
Qed.

Lemma nth_Forall {A} (P : A -> Prop) (l : list A) (d : A) (i : nat) :
  P d -> Forall P l -> P (nth i l d).
Proof.
  intros Hd Hl; destruct (Nat.lt_ge_cases i (length l)) as [H|H].
  - rewrite Forall_forall in Hl; apply Hl, nth_In, H.
  - rewrite nth_overflow by exact H; exact Hd.
Qed.

Lemma lower_ok_no_entry : lower_ok no_entry.
Proof. constructor. Qed.

Lemma update_fields_lower_ok (body : list (str * json)) (e : entry) :
  lower_ok e -> lower_ok (update_fields body e).
Proof.
  intro He; unfold update_fields.
  destruct (jget (s2l "title") body); destruct (jget (s2l "keywords") body) as [[| | | |[|k ks]|]|];
    destruct (jget (s2l "responses") body) as [[| | | |[|r rs]|]|];
    unfold lower_ok; simpl; try exact He; apply (lower_ok_map py_str (k :: ks)).
Qed.

Lemma save_heap (ok : bool) (refs : list nat) (st : store) :
  heap (snd (save_admin_entries ok refs st)) = heap st.
Proof. destruct ok; reflexivity. Qed.

Lemma add_heap_lower_ok auth body new_id now ok (st : store) :
  Forall lower_ok (heap st) ->
  Forall lower_ok (heap (snd (add_knowledge auth body new_id now ok st))).
Proof.
  intro H; unfold add_knowledge.
  destruct (negb auth); [exact H|]; cbv zeta.
  destruct (get_or (s2l "keywords") body (JArr [])) as [| | | |[|k ks]|]; try exact H.
  match goal with |- context [match ?r with Some _ => _ | None => _ end] =>
    destruct r as [[| | | |[|x xs]|]|] end; try exact H.
  match goal with |- context [save_admin_entries ok ?refs ?st1] =>
    pose proof (save_heap ok refs st1) as Hs; destruct (save_admin_entries ok refs st1) as [[|] st2] end;
    simpl in *; rewrite Hs; apply Forall_app;
    (split; [exact H|apply Forall_cons; [apply (lower_ok_map py_str (k :: ks))|apply Forall_nil]]).
Qed.

Lemma update_heap_lower_ok auth id body ok (st : store) :
  Forall lower_ok (heap st) ->
  Forall lower_ok (heap (snd (update_knowledge auth id body ok st))).
Proof.
  intro H; unfold update_knowledge.
  destruct (negb auth); [exact H|]; cbv zeta.
  destruct (find_ref (heap st) id (admin_refs st)) as [i|]; [|exact H].
  match goal with |- context [save_admin_entries ok ?refs ?st1] =>
    pose proof (save_heap ok refs st1) as Hs; destruct (save_admin_entries ok refs st1) as [[|] st2] end;
    simpl in *; rewrite Hs; apply Forall_set_nth; auto;
    apply update_fields_lower_ok, nth_Forall; auto using lower_ok_no_entry.
Qed.

Lemma load_entries_lower_ok fresh now (raws : list json) :
  forall n es, load_entries fresh now n raws = Some es -> Forall lower_ok es.
Proof.
  induction raws as [|r raws IH]; simpl; intros n es Hl.
  - injection Hl as <-; constructor.
  - destruct (normalize_entry (fresh n) now r) as [e|] eqn:He; [|discriminate].
    destruct (load_entries fresh now (S n) raws) as [es'|] eqn:Hs; [|discriminate].
    injection Hl as <-; constructor; [|exact (IH _ _ Hs)].
    unfold normalize_entry in He.
    destruct r as [| | | | |kv]; try discriminate.
    destruct (iter_json (get_or (s2l "keywords") kv (JArr []))); [|discriminate].
    destruct (text_field (s2l "id") kv (fresh n)), (text_field (s2l "title") kv (s2l "Custom")),
      (text_field (s2l "created_at") kv now); try discriminate.
    injection He as <-; apply lower_ok_map with (f := fun k => py_str (JStr k)).
Qed.

Lemma admin_view_lower_ok (st : store) :
  Forall lower_ok (heap st) -> Forall lower_ok (admin_view st).
Proof.
  intro H; unfold admin_view, deref; apply Forall_forall; intros e He.
  apply in_map_iff in He as (i & <- & _); apply nth_Forall; auto using lower_ok_no_entry.
Qed.

(** a failed save after [add_knowledge] or [delete_knowledge] leaves the tier
    and the file as they were (the tier refers to allocated dictionaries) *)
Lemma add_save_failure_keeps_tier auth body new_id now (st : store) :
  Forall (fun i => i < length (heap st)) (admin_refs st) ->
  admin_view (snd (add_knowledge auth body new_id now false st)) = admin_view st /\
  disk (snd (add_knowledge auth body new_id now false st)) = disk st.
Proof.
  intro Hwf; unfold add_knowledge; destruct (negb auth); [auto|]; cbv zeta.
  destruct (get_or (s2l "keywords") body (JArr [])) as [| | | |[|k ks]|]; auto.
  match goal with |- context [match ?r with Some _ => _ | None => _ end] =>
    destruct r as [[| | | |[|x xs]|]|] end; auto.
  simpl; split; [|reflexivity].
  unfold admin_view, deref; simpl; apply map_ext_in; intros i Hi.
  rewrite Forall_forall in Hwf; apply app_nth1, Hwf, Hi.
Qed.

Lemma delete_save_failure_keeps_tier auth id (st : store) :
  snd (delete_knowledge auth id false st) = st.
Proof.
  unfold delete_knowledge; destruct (negb auth); [reflexivity|]; cbv zeta.
  destruct (Nat.eqb _ _); reflexivity.
Qed.

(** ** Chunking *)

Lemma full_but_last_cons (size : nat) (x : str) (l : list str) :
  (l = [] -> 0 < length x <= size) -> (l <> [] -> length x = size /\ full_but_last size l) ->
  full_but_last size (x :: l).
Proof. destruct l as [|y l]; simpl; intros H1 H2; [apply H1|apply H2]; congruence. Qed.

Lemma slice_loop_spec (size : nat) (para : str) :
  0 < size ->
  forall fuel start, length para - start <= fuel ->
  concat (slice_loop size fuel para start) = skipn start para /\
  Forall (fun s => s <> [] /\ length s <= size) (slice_loop size fuel para start) /\
  full_but_last size (slice_loop size fuel para start).
Proof.
  intros Hs fuel; induction fuel as [|f IH]; intros start Hf; simpl.
  - rewrite skipn_all2 by lia; repeat split; constructor.
  - destruct (Nat.ltb start (length para)) eqn:Lt.
    + apply Nat.ltb_lt in Lt.
      destruct (IH (start + size)) as (Hc & Hb & Hl); [lia|].
      assert (Hlen : length (firstn size (skipn start para)) = Nat.min size (length para - start))
        by (rewrite length_firstn, length_skipn; reflexivity).
      split; [|split].
      * simpl; rewrite Hc, Nat.add_comm, <- skipn_skipn; apply firstn_skipn.
      * constructor; [|exact Hb]; split.
        -- intro E; rewrite E in Hlen; simpl in Hlen; lia.
        -- rewrite Hlen; lia.
      * apply full_but_last_cons; [intros _; rewrite Hlen; lia|].
        intro Hne; split; [|exact Hl].
        destruct f as [|f']; [simpl in Hne; congruence|].
        simpl in Hne; destruct (Nat.ltb (start + size) (length para)) eqn:Lt2;
          [apply Nat.ltb_lt in Lt2; lia|congruence].
    + apply Nat.ltb_ge in Lt; rewrite skipn_all2 by lia; repeat split; constructor.
Qed.

Lemma segments_spec (size : nat) (p : str) :
  0 < size ->
  concat (segments size p) = p /\
  Forall (fun s => s <> [] /\ length s <= size) (segments size p) /\
  full_but_last size (segments size p).
Proof.
  intro Hs; unfold segments; destruct (slice_loop_spec size p Hs (length p) 0) as (H1 & H2 & H3);
    [lia|]; split; [exact H1|]; split; assumption.
Qed.

Lemma filter_nonempty_id (l : list str) :
  Forall (fun s => s <> []) l -> List.filter nonempty l = l.
Proof.
  induction 1 as [|x l Hx _ IH]; [reflexivity|]; simpl.
  destruct x; [congruence|]; simpl; f_equal; exact IH.
Qed.

Lemma chunk_text_flat (size : nat) (text : str) :
  0 < size -> chunk_text text size = flat_map (segments size) (paragraphs text).
Proof.
  intro Hs; unfold chunk_text; apply filter_nonempty_id.
  apply Forall_forall; intros s Hin; apply in_flat_map in Hin as (p & _ & Hp).
  destruct (segments_spec size p Hs) as (_ & Hf & _); rewrite Forall_forall in Hf.
  apply Hf, Hp.
Qed.

Lemma concat_flat_segments (size : nat) (ps : list str) :
  0 < size -> concat (flat_map (segments size) ps) = concat ps.
Proof.
  intro Hs; induction ps as [|p ps IH]; [reflexivity|]; simpl.
  rewrite concat_app, IH, (proj1 (segments_spec size p Hs)); reflexivity.
Qed.

Lemma drop_space_head (s : str) :
  match drop_space s with [] => True | c :: _ => is_space c = false end.
Proof.
  induction s as [|c s IH]; simpl; [exact I|].
  destruct (is_space c) eqn:E; [exact IH|exact E].
Qed.

Lemma drop_space_suffix (s : str) : exists pre, s = pre ++ drop_space s.
Proof.
  induction s as [|c s [pre IH]]; simpl; [exists []; reflexivity|].
  destruct (is_space c); [exists (c :: pre); simpl; f_equal; exact IH|exists []; reflexivity].
Qed.

Lemma trimmed_strip (s : str) : trimmed (strip s).
Proof.
  unfold trimmed, strip; rewrite rev_involutive; split; [|apply drop_space_head].
  pose proof (drop_space_head s) as Ht; set (t := drop_space s) in *.
  destruct (drop_space_suffix (rev t)) as [pre Hpre].
  destruct (rev (drop_space (rev t))) as [|a l] eqn:E; [exact I|].
  assert (Hu : drop_space (rev t) = rev l ++ [a])
    by (rewrite <- (rev_involutive (drop_space (rev t))), E; reflexivity).
  rewrite Hu in Hpre; apply (f_equal (@rev ascii)) in Hpre.
  rewrite rev_involutive, !rev_app_distr in Hpre; simpl in Hpre.
  rewrite Hpre in Ht; exact Ht.
Qed.

Lemma scan_ws_spec (s rest : str) :
  forall best, scan_ws s best = Some rest ->
  best = Some rest \/ exists mid, s = mid ++ nl :: rest /\ Forall (fun c => is_space c = true) mid.
Proof.
  induction s as [|c s IH]; simpl; intros best H; [left; exact H|].
  destruct (is_space c) eqn:Es; [|left; exact H].
  destruct (IH _ H) as [Hb|(mid & -> & Hm)].
  - destruct (ascii_dec c nl) as [->|_]; [|left; exact Hb].
    injection Hb as <-; right; exists []; split; [reflexivity|constructor].
  - right; exists (c :: mid); split; [reflexivity|constructor; assumption].
Qed.

Lemma split_from_spec (fuel : nat) :
  forall cur s, exists p0 rest,
    split_from fuel cur s = p0 :: map snd rest /\
    Forall (fun sq => blank_sep (fst sq)) rest /\
    rev cur ++ s = p0 ++ concat (map (fun sq => fst sq ++ snd sq) rest).
Proof.
  induction fuel as [|f IH]; intros cur s; simpl.
  - exists (rev cur ++ s), []; simpl; rewrite app_nil_r; repeat split; constructor.
  - destruct s as [|c s].
    + exists (rev cur), []; simpl; rewrite !app_nil_r; repeat split; constructor.
    + assert (Hstep : exists p0 rest,
                split_from f (c :: cur) s = p0 :: map snd rest /\
                Forall (fun sq => blank_sep (fst sq)) rest /\
                rev cur ++ c :: s = p0 ++ concat (map (fun sq => fst sq ++ snd sq) rest)).
      { destruct (IH (c :: cur) s) as (p0 & rest & H1 & H2 & H3).
        exists p0, rest; split; [exact H1|]; split; [exact H2|].
        rewrite <- H3; simpl; rewrite <- app_assoc; reflexivity. }
      destruct (ascii_dec c nl) as [->|_]; [|exact Hstep].
      destruct (scan_ws s None) as [rest0|] eqn:Hsc; [|exact Hstep].
      destruct (scan_ws_spec s rest0 None Hsc) as [Hn|(mid & -> & Hm)]; [discriminate|].
      destruct (IH [] rest0) as (p1 & rest & H1 & H2 & H3).
      exists (rev cur), ((nl :: mid ++ [nl], p1) :: rest); simpl.
      split; [rewrite H1; reflexivity|]; split.
      * constructor; [exists mid; split; [reflexivity|exact Hm]|exact H2].
      * simpl in H3; rewrite H3, <- !app_assoc; reflexivity.
Qed.

(** ** Document ingestion: frequency scan, stable sort, keyword set *)

Definition str_dec := list_eq_dec ascii_dec.

Lemma str_eqb_sym (a b : str) : str_eqb a b = str_eqb b a.
Proof.
  destruct (str_eqb a b) eqn:E, (str_eqb b a) eqn:F; auto.
  - apply str_eqb_true in E; apply str_eqb_false in F; congruence.
  - apply str_eqb_false in E; apply str_eqb_true in F; congruence.
Qed.

Lemma lookup_bump (t x : str) (F : list (str * nat)) :
  lookup t (bump x F) = lookup t F + (if str_eqb x t then 1 else 0).
Proof.
  induction F as [|[k n] F IH]; simpl.
  - destruct (str_eqb x t); reflexivity.
  - destruct (str_eqb k x) eqn:Ekx; simpl.
    + apply str_eqb_true in Ekx; subst k.
      destruct (str_eqb x t); lia.
    + destruct (str_eqb k t) eqn:Ekt; [|exact IH].
      apply str_eqb_true in Ekt; subst k.
      rewrite str_eqb_sym, Ekx; lia.
Qed.

Lemma mem_map_fst_bump (x : str) (F : list (str * nat)) :
  map fst (bump x F) = if mem x (map fst F) then map fst F else map fst F ++ [x].
Proof.
  induction F as [|[k n] F IH]; simpl; [reflexivity|].
  destruct (str_eqb k x) eqn:Ekx; simpl.
  - rewrite str_eqb_sym, Ekx; reflexivity.
  - rewrite str_eqb_sym, Ekx, IH; simpl.
    destruct (mem x (map fst F)); reflexivity.
Qed.

Lemma freq_scan_filter (toks : list str) (F : list (str * nat)) :
  fold_left (fun freq tok => if eligible tok then bump tok freq else freq) toks F
  = fold_left (fun freq tok => bump tok freq) (List.filter eligible toks) F.
Proof.
  revert F; induction toks as [|x toks IH]; intro F; simpl; [reflexivity|].
  destruct (eligible x); simpl; apply IH.
Qed.

Lemma lookup_fold (t : str) (L : list str) (F : list (str * nat)) :
  lookup t (fold_left (fun freq tok => bump tok freq) L F) = lookup t F + count_occ str_dec L t.
Proof.
  revert F; induction L as [|x L IH]; intro F; simpl; [lia|].
  rewrite IH, lookup_bump.
  destruct (str_eqb x t) eqn:E, (str_dec x t); try lia.
  - apply str_eqb_true in E; contradiction.
  - subst; apply str_eqb_false in E; contradiction.
Qed.

Lemma mem_uniq (x : str) (L : list str) : mem x (uniq L) = mem x L.
Proof.
  destruct (mem x L) eqn:E.
  - apply mem_In; apply mem_In in E; apply uniq_In; exact E.
  - destruct (mem x (uniq L)) eqn:F; auto.
    apply mem_In in F; rewrite uniq_In in F; apply mem_In in F; congruence.
Qed.

Lemma uniq_snoc (L : list str) (x : str) :
  uniq (L ++ [x]) = if mem x L then uniq L else uniq L ++ [x].
Proof.
  induction L as [|y L IH]; simpl; [reflexivity|].
  rewrite IH.
  destruct (str_eqb y x) eqn:Eyx.
  - apply str_eqb_true in Eyx; subst y.
    assert (Hxx : str_eqb x x = true) by (apply str_eqb_true; reflexivity).
    rewrite Hxx; simpl.
    destruct (mem x L); [reflexivity|].
    rewrite filter_app; simpl; rewrite Hxx; simpl; rewrite app_nil_r; reflexivity.
  - rewrite str_eqb_sym, Eyx; simpl.
    destruct (mem x L); [reflexivity|].
    rewrite filter_app; simpl; rewrite Eyx; reflexivity.
Qed.

Lemma keys_fold (L : list str) :
  map fst (fold_left (fun freq tok => bump tok freq) L []) = uniq L.
Proof.
  induction L as [|L x IH] using rev_ind; [reflexivity|].
  rewrite fold_left_app; simpl.
  rewrite mem_map_fst_bump, IH, mem_uniq, uniq_snoc; reflexivity.
Qed.

Lemma In_lookup (F : list (str * nat)) (t : str) (c : nat) :
  NoDup (map fst F) -> In (t, c) F -> lookup t F = c.
Proof.
  induction F as [|[k n] F IH]; simpl; [contradiction|].
  intros Hnd [H|H]; inversion Hnd as [|? ? Hk Hnd']; subst.
  - injection H as -> ->.
    assert (Htt : str_eqb t t = true) by (apply str_eqb_true; reflexivity).
    rewrite Htt; reflexivity.
  - destruct (str_eqb k t) eqn:E; [|apply IH; assumption].
    apply str_eqb_true in E; subst k.
    exfalso; apply Hk; apply in_map_iff; exists (t, c); auto.
Qed.

Lemma lookup_In (F : list (str * nat)) (t : str) :
  In t (map fst F) -> In (t, lookup t F) F.
Proof.
  induction F as [|[k n] F IH]; simpl; [contradiction|].
  intro H; destruct (str_eqb k t) eqn:E.
  - apply str_eqb_true in E; subst k; left; reflexivity.
  - right; apply IH; destruct H as [H|H]; auto.
    apply str_eqb_false in E; contradiction.
Qed.

(** the stable sort *)

Definition desc (a b : str * nat) : Prop := snd b <= snd a.

Lemma insert_desc_perm (x : str * nat) (l : list (str * nat)) :
  Permutation (insert_desc x l) (x :: l).
Proof.
  induction l as [|y l IH]; simpl; [reflexivity|].
  destruct (Nat.leb (snd y) (snd x)); [reflexivity|].
  transitivity (y :: x :: l); [apply perm_skip, IH | apply perm_swap].
Qed.

Lemma sort_desc_perm (l : list (str * nat)) : Permutation (sort_desc l) l.
Proof.
  induction l as [|x l IH]; simpl; [reflexivity|].
  rewrite insert_desc_perm; apply perm_skip, IH.
Qed.

Lemma Forall_perm {A} (P : A -> Prop) (l l' : list A) :
  Permutation l l' -> Forall P l' -> Forall P l.
Proof.
  intros Hp H; apply Forall_forall; intros z Hz.
  rewrite Forall_forall in H; apply H; apply Permutation_in with l; assumption.
Qed.

Lemma insert_desc_sorted (x : str * nat) (l : list (str * nat)) :
  StronglySorted desc l -> StronglySorted desc (insert_desc x l).
Proof.
  induction l as [|y l IH]; simpl; intro Hs.
  - repeat constructor.
  - apply StronglySorted_inv in Hs as [Hs Hy].
    destruct (Nat.leb (snd y) (snd x)) eqn:E.
    + apply Nat.leb_le in E.
      constructor; [constructor; assumption|].
      constructor; [exact E|].
      rewrite Forall_forall in Hy |- *; intros z Hz; unfold desc in *.
      specialize (Hy z Hz); lia.
    + apply Nat.leb_gt in E.
      constructor; [apply IH; exact Hs|].
      apply Forall_perm with (x :: l); [apply insert_desc_perm|].
      constructor; [unfold desc; lia | exact Hy].
Qed.

Lemma sort_desc_sorted (l : list (str * nat)) : StronglySorted desc (sort_desc l).
Proof.
  induction l as [|x l IH]; simpl; [constructor|].
  apply insert_desc_sorted, IH.
Qed.

Lemma insert_desc_before (y x : str * nat) (A B : list (str * nat)) :
  snd x <= snd y ->
  exists A', insert_desc y (A ++ x :: B) = A' ++ x :: B /\ length A' = S (length A).
Proof.
  intro Hxy; induction A as [|a A IH]; simpl.
  - exists [y]; apply Nat.leb_le in Hxy; rewrite Hxy; auto.
  - destruct (Nat.leb (snd a) (snd y)).
    + exists (y :: a :: A); auto.
    + destruct IH as [A' [HA' HL]]; exists (a :: A'); rewrite HA'; simpl; auto.
Qed.

Lemma insert_desc_after (y x : str * nat) (A B : list (str * nat)) :
  Forall (fun a => snd x <= snd a) A -> snd y < snd x ->
  exists B', insert_desc y (A ++ x :: B) = A ++ x :: B'.
Proof.
  intros HA Hyx; induction A as [|a A IH]; simpl.
  - exists (insert_desc y B).
    assert (E : Nat.leb (snd x) (snd y) = false) by (apply Nat.leb_gt; exact Hyx).
    rewrite E; reflexivity.
  - inversion HA as [|? ? Ha HA']; subst.
    assert (E : Nat.leb (snd a) (snd y) = false) by (apply Nat.leb_gt; lia).
    rewrite E; destruct (IH HA') as [B' HB']; exists B'; rewrite HB'; reflexivity.
Qed.

Lemma count_true_zero {A} (p : A -> bool) (l : list A) :
  Forall (fun z => p z = false) l -> count_true p l = 0.
Proof.
  induction 1; unfold count_true in *; simpl; [reflexivity|].
  rewrite H; exact IHForall.
Qed.

Lemma count_true_perm {A} (p : A -> bool) (l l' : list A) :
  Permutation l l' -> count_true p l = count_true p l'.
Proof.
  intro H; unfold count_true; apply Permutation_length, Permutation_filter_bool, H.
Qed.

Lemma insert_desc_pos (y : str * nat) (S : list (str * nat)) :
  StronglySorted desc S ->
  exists A B, insert_desc y S = A ++ y :: B
              /\ length A = count_true (fun z => Nat.ltb (snd y) (snd z)) S.
Proof.
  induction S as [|s S IH]; simpl; intro Hs.
  - exists [], []; auto.
  - apply StronglySorted_inv in Hs as [Hs Hsf].
    destruct (Nat.leb (snd s) (snd y)) eqn:E.
    + apply Nat.leb_le in E.
      exists [], (s :: S); split; [reflexivity|].
      unfold count_true; simpl.
      assert (Es : Nat.ltb (snd y) (snd s) = false) by (apply Nat.ltb_ge; exact E).
      rewrite Es; symmetry; apply count_true_zero.
      rewrite Forall_forall in Hsf |- *; intros z Hz; apply Nat.ltb_ge.
      specialize (Hsf z Hz); unfold desc in Hsf; lia.
    + apply Nat.leb_gt in E.
      destruct (IH Hs) as [A [B [HAB HL]]].
      exists (s :: A), B; rewrite HAB; split; [reflexivity|].
      unfold count_true in *; simpl.
      assert (Es : Nat.ltb (snd y) (snd s) = true) by (apply Nat.ltb_lt; exact E).
      rewrite Es; simpl; rewrite HL; reflexivity.
Qed.

(** where a counted token lands in the sorted list: after exactly
    [rank_in F t c] items *)
Lemma sort_desc_position (F : list (str * nat)) (t : str) (c : nat) :
  NoDup (map fst F) -> In (t, c) F ->
  exists A B, sort_desc F = A ++ (t, c) :: B /\ length A = rank_in F t c.
Proof.
  induction F as [|[u d] F IH]; simpl; [contradiction|].
  intros Hnd Hin; inversion Hnd as [|? ? Hu Hnd']; subst.
  destruct (str_eqb u t) eqn:Eut.
  - apply str_eqb_true in Eut; subst u.
    assert (Hcd : d = c).
    { destruct Hin as [H|H]; [congruence|].
      exfalso; apply Hu; apply in_map_iff; exists (t, c); auto. }
    subst d.
    destruct (insert_desc_pos (t, c) (sort_desc F) (sort_desc_sorted F)) as [A [B [HAB HL]]].
    exists A, B; split; [exact HAB|].
    rewrite HL; apply count_true_perm, sort_desc_perm.
  - destruct Hin as [H|H]; [injection H as Hut _; apply str_eqb_false in Eut; contradiction|].
    destruct (IH Hnd' H) as [A [B [HAB HL]]].
    rewrite HAB.
    destruct (Nat.leb c d) eqn:Ecd.
    + apply Nat.leb_le in Ecd.
      destruct (insert_desc_before (u, d) (t, c) A B Ecd) as [A' [HA' HL']].
      exists A', B; split; [exact HA'|]; rewrite HL', HL; reflexivity.
    + apply Nat.leb_gt in Ecd.
      assert (HA : Forall (fun a => snd (t, c) <= snd a) A).
      { pose proof (sort_desc_sorted F) as Hs; rewrite HAB in Hs.
        apply Forall_forall; intros a Ha.
        clear -Hs Ha; induction A as [|a' A IHA]; simpl in *; [contradiction|].
        apply StronglySorted_inv in Hs as [Hs Hf].
        destruct Ha as [<-|Ha]; [|apply IHA; assumption].
        rewrite Forall_forall in Hf; apply (Hf (t, c)), in_or_app; right; left; reflexivity. }
      destruct (insert_desc_after (u, d) (t, c) A B HA Ecd) as [B' HB'].
      exists A, B'; split; [exact HB'|]; rewrite HL; reflexivity.
Qed.

Lemma In_firstn {A} (n : nat) (x : A) (l : list A) : In x (firstn n l) -> In x l.
Proof.
  intro H; rewrite <- (firstn_skipn n l); apply in_or_app; left; exact H.
Qed.

Lemma NoDup_firstn' {A} (n : nat) (l : list A) : NoDup l -> NoDup (firstn n l).
Proof.
  intro H; rewrite <- (firstn_skipn n l) in H; apply NoDup_app_remove_r in H; exact H.
Qed.

Lemma firstn_keys_split (n : nat) (A B : list (str * nat)) (t : str) (c : nat) :
  NoDup (map fst (A ++ (t, c) :: B)) ->
  (In t (map fst (firstn n (A ++ (t, c) :: B))) <-> length A < n).
Proof.
  intro Hnd; split.
  - intro H; destruct (Nat.lt_ge_cases (length A) n) as [Hlt|Hge]; [exact Hlt|].
    exfalso.
    rewrite firstn_app, (proj2 (Nat.sub_0_le n (length A)) Hge), app_nil_r in H.
    rewrite map_app in Hnd; simpl in Hnd.
    apply NoDup_remove_2 in Hnd; apply Hnd, in_or_app; left.
    apply in_map_iff in H as [z [Hz Hin]]; apply in_map_iff; exists z.
    split; [exact Hz | apply In_firstn with n; exact Hin].
  - intro Hlt.
    rewrite firstn_app, map_app; apply in_or_app; right.
    destruct (n - length A) eqn:E; [lia|]; simpl; left; reflexivity.
Qed.

Lemma top_by_rank (n : nat) (F : list (str * nat)) (t : str) :
  NoDup (map fst F) ->
  (In t (map fst (firstn n (sort_desc F))) <-> In t (map fst F) /\ rank_in F t (lookup t F) < n).
Proof.
  intro Hnd.
  assert (HndS : NoDup (map fst (sort_desc F))).
  { apply Permutation_NoDup with (map fst F); [|exact Hnd].
    apply Permutation_map, Permutation_sym, sort_desc_perm. }
  split.
  - intro H.
    assert (HtF : In t (map fst F)).
    { apply Permutation_in with (map fst (sort_desc F)); [apply Permutation_map, sort_desc_perm|].
      apply in_map_iff in H as [z [Hz Hin]]; apply in_map_iff; exists z.
      split; [exact Hz | apply In_firstn with n; exact Hin]. }
    split; [exact HtF|].
    destruct (sort_desc_position F t (lookup t F) Hnd (lookup_In F t HtF)) as [A [B [HAB HL]]].
    rewrite <- HL; rewrite HAB in H, HndS; apply (firstn_keys_split n A B t _ HndS); exact H.
  - intros [HtF Hr].
    destruct (sort_desc_position F t (lookup t F) Hnd (lookup_In F t HtF)) as [A [B [HAB HL]]].
    rewrite HAB in HndS |- *; apply (firstn_keys_split n A B t _ HndS); lia.
Qed.

(** the keyword set *)

Lemma set_add_props (x : str) (s : list str) :
  (NoDup s -> NoDup (set_add x s)) /\ incl s (set_add x s) /\ In x (set_add x s).
Proof.
  unfold set_add; destruct (mem x s) eqn:E.
  - split; [auto|]; split; [apply incl_refl | apply mem_In; exact E].
  - split; [|split].
    + intro Hnd; apply Permutation_NoDup with (x :: s); [apply Permutation_cons_append|].
      constructor; [|exact Hnd].
      intro H; apply mem_In in H; congruence.
    + intros z Hz; apply in_or_app; left; exact Hz.
    + apply in_or_app; right; left; reflexivity.
Qed.

Lemma set_update_props (xs s : list str) :
  (NoDup s -> NoDup (set_update xs s)) /\ incl s (set_update xs s) /\ incl xs (set_update xs s).
Proof.
  revert s; induction xs as [|x xs IH]; intro s; simpl.
  - split; [auto|]; split; [apply incl_refl | intros z []].
  - destruct (set_add_props x s) as [H1 [H2 H3]].
    destruct (IH (set_add x s)) as [I1 [I2 I3]].
    split; [|split].
    + intro Hnd; apply I1, H1, Hnd.
    + intros z Hz; apply I2, H2, Hz.
    + intros z [<-|Hz]; [apply I2, H3 | apply I3, Hz].
Qed.

Lemma base_keywords_NoDup (title raw text : str) : NoDup (base_keywords title raw text).
Proof.
  unfold base_keywords; cbv zeta.
  apply (proj1 (set_update_props _ _)), (proj1 (set_update_props _ _)),
        (proj1 (set_update_props _ _)); constructor.
Qed.

(** ** Stores: references, in-place updates and filters *)

Lemma set_nth_length {A} (i : nat) (x : A) (l : list A) : length (set_nth i x l) = length l.
Proof. revert i; induction l as [|y l IH]; intros [|i]; simpl; auto. Qed.

Lemma nth_set_nth_same {A} (i : nat) (x d : A) (l : list A) :
  i < length l -> nth i (set_nth i x l) d = x.
Proof.
  revert i; induction l as [|y l IH]; intros [|i] H; simpl in *; try lia; auto;
    apply IH; lia.
Qed.

Lemma nth_set_nth_other {A} (i k : nat) (x d : A) (l : list A) :
  k <> i -> nth k (set_nth i x l) d = nth k l d.
Proof.
  revert i k; induction l as [|y l IH]; intros [|i] [|k] H; simpl; auto; try lia;
    apply IH; lia.
Qed.

Lemma first_ref_In {A} (d : A) (p : A -> bool) (h : list A) (refs : list nat) (i : nat) :
  first_ref d p h refs = Some i -> In i refs /\ p (nth i h d) = true.
Proof.
  induction refs as [|j refs IH]; simpl; [discriminate|].
  destruct (p (nth j h d)) eqn:E; intro H.
  - injection H as <-; auto.
  - destruct (IH H); auto.
Qed.

Lemma first_ref_None {A} (d : A) (p : A -> bool) (h : list A) (refs : list nat) :
  first_ref d p h refs = None <-> Forall (fun x => p x = false) (map (fun j => nth j h d) refs).
Proof.
  induction refs as [|j refs IH]; simpl; [split; auto|].
  destruct (p (nth j h d)) eqn:E; split; intro H.
  - discriminate.
  - inversion H; congruence.
  - constructor; [exact E | apply IH, H].
  - inversion H; apply IH; assumption.
Qed.

(** an in-place update through the first matching reference is a
    [replace_first] on the list of dictionaries *)
Lemma deref_replace_first {A} (d : A) (p : A -> bool) (f : A -> A) (h : list A)
  (refs : list nat) (i : nat) :
  refs_ok refs (length h) -> first_ref d p h refs = Some i ->
  map (fun j => nth j (set_nth i (f (nth i h d)) h) d) refs
  = replace_first p f (map (fun j => nth j h d) refs).
Proof.
  intros [Hnd Hlt]; induction refs as [|j refs IH]; simpl; [discriminate|].
  inversion Hnd as [|? ? Hj Hnd']; inversion Hlt as [|? ? Hjl Hlt']; subst.
  destruct (p (nth j h d)) eqn:E; intro H.
  - injection H as <-.
    rewrite nth_set_nth_same by exact Hjl; f_equal.
    apply map_ext_in; intros k Hk; apply nth_set_nth_other; congruence.
  - destruct (first_ref_In d p h refs i H) as [Hi _].
    rewrite nth_set_nth_other by congruence; f_equal; apply IH; assumption.
Qed.

Lemma deref_snoc {A} (d : A) (h : list A) (refs : list nat) (x : A) :
  Forall (fun i => i < length h) refs ->
  map (fun i => nth i (h ++ [x]) d) (refs ++ [length h]) = map (fun i => nth i h d) refs ++ [x].
Proof.
  intro H; rewrite map_app; simpl; rewrite nth_middle; f_equal.
  apply map_ext_in; intros i Hi; rewrite Forall_forall in H.
  apply app_nth1, H, Hi.
Qed.

Lemma map_filter_comm {A B} (g : A -> B) (q : B -> bool) (l : list A) :
  map g (List.filter (fun i => q (g i)) l) = List.filter q (map g l).
Proof.
  induction l as [|x l IH]; simpl; [reflexivity|].
  destruct (q (g x)); simpl; rewrite IH; reflexivity.
Qed.

Lemma filter_length_eq {A} (p : A -> bool) (l : list A) :
  length (List.filter p l) = length l <-> Forall (fun x => p x = true) l.
Proof.
  induction l as [|x l IH]; simpl; [split; auto|].
  pose proof (filter_length_le p l) as Hle.
  destruct (p x) eqn:E; simpl; split; intro H.
  - constructor; [exact E | apply IH; lia].
  - inversion H; f_equal; apply IH; assumption.
  - lia.
  - inversion H; congruence.
Qed.

Lemma find_ref_first (h : list entry) (id : str) (refs : list nat) :
  find_ref h id refs = first_ref no_entry (fun e => str_eqb (e_id e) id) h refs.
Proof. induction refs as [|j refs IH]; simpl; [reflexivity|]; rewrite IH; reflexivity. Qed.

Lemma find_loc_first (h : list location) (id : str) (refs : list nat) :
  find_loc h id refs = first_ref no_location (fun l => id_is (l_id l) id) h refs.
Proof. induction refs as [|j refs IH]; simpl; [reflexivity|]; rewrite IH; reflexivity. Qed.

Lemma Forall_false_not_In (id : str) (l : list entry) :
  Forall (fun e => str_eqb (e_id e) id = false) l <-> ~ In id (map e_id l).
Proof.
  rewrite Forall_forall; split.
  - intros H Hin; apply in_map_iff in Hin as (e & He & Hin).
    specialize (H e Hin); apply str_eqb_false in H; contradiction.
  - intros H e He; apply str_eqb_false; intro Heq; apply H, in_map_iff; exists e; auto.
Qed.

Lemma update_fields_id (body : list (str * json)) (e : entry) :
  e_id (update_fields body e) = e_id e.
Proof.
  unfold update_fields.
  destruct (jget (s2l "title") body); [|]; 
  destruct (jget (s2l "keywords") body) as [[| | | | [|? ?] |]|];
  destruct (jget (s2l "responses") body) as [[| | | | [|? ?] |]|]; reflexivity.
Qed.

Lemma replace_first_map {A B} (g : A -> B) (p : A -> bool) (f : A -> A) (l : list A) :
  (forall x, g (f x) = g x) -> map g (replace_first p f l) = map g l.
Proof.
  intro Hg; induction l as [|x l IH]; simpl; [reflexivity|].
  destruct (p x); simpl; rewrite ?Hg, ?IH; reflexivity.
Qed.

(** ** History *)

Lemma get_response_with_meta_same (r : nat) (msg : str) (st : college_ai) :
  fst (fst (get_response_with_meta r msg st)) = fst (get_response r msg st) /\
  snd (get_response_with_meta r msg st) = snd (get_response r msg st) /\
  (snd (fst (get_response_with_meta r msg st)) = None <-> admin_pick st msg = None).
Proof.
  unfold get_response_with_meta, get_response.
  destruct (admin_pick st msg) as [e|]; simpl.
  - rewrite <- app_assoc; simpl; repeat split; discriminate.
  - repeat split; reflexivity.
Qed.

Lemma get_response_history (r : nat) (msg : str) (st : college_ai) :
  snd (get_response r msg st) =
  set_history st (conversation_history st ++ [User msg; Bot (fst (get_response r msg st))]).
Proof.
  unfold get_response; destruct (admin_pick st msg); simpl; rewrite <- app_assoc; reflexivity.
Qed.

(** ** Python's [str] of a truthy value is not empty *)

Lemma string_of_uint_nonempty (d : Decimal.uint) :
  d <> Decimal.Nil -> NilEmpty.string_of_uint d <> EmptyString.
Proof. destruct d; simpl; congruence. Qed.

Lemma int_str_nonempty (z : Z) : int_str z <> [].
Proof.
  unfold int_str; destruct z as [|p|p]; simpl; try discriminate.
  pose proof (DecimalPos.Unsigned.to_uint_nonnil p) as H.
  destruct (Pos.to_uint p); simpl; try discriminate; congruence.
Qed.

Lemma py_str_truthy (v : json) : truthy v = true -> py_str v <> [].
Proof.
  destruct v as [|[]|z|s|xs|kv]; simpl; intro H; try discriminate.
  - apply int_str_nonempty.
  - destruct s; discriminate.
Qed.

Lemma py_str_get_or_nonempty (key : str) (kv : list (str * json)) (default : str) :
  default <> [] -> py_str (get_or key kv (JStr default)) <> [].
Proof.
  intro Hd; unfold get_or; destruct (jget key kv) as [v|]; [|exact Hd].
  destruct (truthy v) eqn:E; [apply py_str_truthy, E | exact Hd].
Qed.

(** ** Tokens *)

Lemma lower_char_not_upper (c : ascii) : in_range 65 90 (lower_char c) = false.
Proof. destruct c as [[] [] [] [] [] [] [] []]; reflexivity. Qed.

Lemma alnum_runs_chars (s : str) :
  forall cur t, In t (alnum_runs_from cur s) ->
  Forall (fun c => is_alnum c = true) cur ->
  Forall (fun c => is_alnum c = true /\ (In c cur \/ In c s)) t.
Proof.
  induction s as [|c s IH]; simpl; intros cur t Hin Hcur.
  - destruct cur as [|a cur]; simpl in Hin; [contradiction|].
    destruct Hin as [<-|[]]; apply Forall_forall; intros x Hx.
    assert (Hx' : In x (a :: cur)) by (apply In_rev; exact Hx).
    rewrite Forall_forall in Hcur; split; [apply Hcur, Hx' | left; exact Hx'].
  - assert (Hrev : Forall (fun x => is_alnum x = true /\ (In x cur \/ c = x \/ In x s)) (rev cur)).
    { apply Forall_forall; intros x Hx; rewrite <- In_rev in Hx; rewrite Forall_forall in Hcur.
      split; [apply Hcur, Hx | left; exact Hx]. }
    assert (Hlift : forall cur', Forall (fun x => is_alnum x = true /\ (In x cur' \/ In x s)) t ->
                     (forall x, In x cur' -> In x cur \/ c = x) ->
                     Forall (fun x => is_alnum x = true /\ (In x cur \/ c = x \/ In x s)) t).
    { intros cur' H Hsub; apply Forall_forall; intros x Hx; rewrite Forall_forall in H.
      destruct (H x Hx) as [Ha [Hc|Hs]]; split; auto.
      destruct (Hsub x Hc); auto. }
    destruct (is_alnum c) eqn:Ec.
    + apply (Hlift (c :: cur)); [apply IH; [exact Hin | constructor; assumption]|].
      intros x [<-|Hx]; auto.
    + destruct cur as [|y cur'].
      * apply (Hlift []); [apply IH; [exact Hin | constructor] | intros x []].
      * destruct Hin as [<-|Hin]; [exact Hrev|].
        apply (Hlift []); [apply IH; [exact Hin | constructor] | intros x []].
Qed.

(** ** Document ingestion: sizes and the keyword list *)

Lemma chunk_text_sizes (text : str) :
  Forall (fun s => s <> [] /\ length s <= 800) (chunk_text text 800).
Proof.
  rewrite chunk_text_flat by lia.
  apply Forall_forall; intros s Hs; apply in_flat_map in Hs as (p & _ & Hp).
  destruct (segments_spec 800 p) as (_ & H & _); [lia|].
  rewrite Forall_forall in H; apply H, Hp.
Qed.

Lemma pdf_keywords_shape (set_order : list str -> list str) (title raw text : str) :
  (forall l, Permutation (set_order l) l) ->
  length (pdf_keywords set_order title raw text) <= 25 /\
  NoDup (pdf_keywords set_order title raw text).
Proof.
  intro Hord; unfold pdf_keywords; split; [apply firstn_le_length|].
  apply NoDup_firstn', NoDup_filter.
  apply Permutation_NoDup with (base_keywords title raw text);
    [apply Permutation_sym, Hord | apply base_keywords_NoDup].
Qed.

Lemma drop_space_all (s : str) : Forall (fun c => is_space c = true) s -> drop_space s = [].
Proof. induction 1 as [|c s Hc _ IH]; simpl; [reflexivity|]; rewrite Hc; exact IH. Qed.

Lemma strip_all_space (s : str) : Forall (fun c => is_space c = true) s -> strip s = [].
Proof. intro H; unfold strip; rewrite (drop_space_all s H); reflexivity. Qed.

Lemma paragraphs_blank (text : str) :
  Forall (fun c => is_space c = true) text -> paragraphs text = [].
Proof.
  intro H; unfold paragraphs, re_split_blank.
  destruct (split_from_spec (S (length text)) [] text) as (p0 & rest & Hs & _ & Heq).
  simpl in Heq; rewrite Hs.
  assert (Hsub : forall p, In p (p0 :: map snd rest) -> Forall (fun c => is_space c = true) p).
  { intros p Hp; rewrite Forall_forall in H |- *; intros c Hc; apply H; rewrite Heq.
    destruct Hp as [<-|Hp]; apply in_or_app; [left; exact Hc|right].
    apply in_map_iff in Hp as ([a b] & <- & Hin).
    apply in_concat; exists (a ++ b); split; [apply in_map_iff; exists (a, b); auto|].
    apply in_or_app; right; exact Hc. }
  remember (p0 :: map snd rest) as ps eqn:Hps; clear Hps Hs Heq.
  induction ps as [|p ps IH]; simpl; [reflexivity|].
  rewrite strip_all_space by (apply Hsub; left; reflexivity); simpl.
  apply IH; intros q Hq; apply Hsub; right; exact Hq.
Qed.

(** ** Loading *)

Lemma load_entries_shape (fresh : nat -> str) (now : str) (raws : list json) :
  forall n es, load_entries fresh now n raws = Some es ->
  length es = length raws /\ Forall (fun e => e_source_pdf e = None) es.
Proof.
  induction raws as [|r raws IH]; simpl; intros n es H.
  - injection H as <-; auto.
  - destruct (normalize_entry (fresh n) now r) as [e|] eqn:He; [|discriminate].
    destruct (load_entries fresh now (S n) raws) as [es'|] eqn:Hes; [|discriminate].
    injection H as <-; destruct (IH (S n) es' Hes) as [H1 H2]; simpl; split; [lia|].
    constructor; [|exact H2].
    unfold normalize_entry in He; destruct r; try discriminate.
    destruct (iter_json _); [|discriminate].
    destruct (text_field (s2l "id") kv (fresh n)), (text_field (s2l "title") kv (s2l "Custom")),
             (text_field (s2l "created_at") kv now); try discriminate.
    injection He as <-; reflexivity.
Qed.

Lemma load_entries_non_object (fresh : nat -> str) (now : str) (raws : list json) :
  forall n, (exists r, In r raws /\ forall kv, r <> JObj kv) -> load_entries fresh now n raws = None.
Proof.
  induction raws as [|r raws IH]; simpl; intros n (x & Hx & Hno); [contradiction|].
  destruct Hx as [Heq|Hx].
  - rewrite <- Heq in Hno; destruct r; try reflexivity; exfalso; eapply Hno; reflexivity.
  - rewrite (IH (S n)) by (exists x; auto).
    destruct (normalize_entry (fresh n) now r); reflexivity.
Qed.

Lemma load_locs_shape (fresh : nat -> str) (now : str) (raws : list json) :
  forall n ls, load_locs fresh now n raws = Some ls ->
  length ls = length raws /\ Forall (fun l => l_name l <> [] /\ l_category l <> []) ls.
Proof.
  induction raws as [|r raws IH]; simpl; intros n ls H.
  - injection H as <-; auto.
  - destruct (normalize_location (fresh n) now r) as [l|] eqn:Hl; [|discriminate].
    destruct (load_locs fresh now (S n) raws) as [ls'|] eqn:Hls; [|discriminate].
    injection H as <-; destruct (IH (S n) ls' Hls) as [H1 H2]; simpl; split; [lia|].
    constructor; [|exact H2].
    unfold normalize_location in Hl; destruct r; try discriminate.
    injection Hl as <-; simpl; split; apply py_str_get_or_nonempty; discriminate.
Qed.

Lemma load_locs_non_object (fresh : nat -> str) (now : str) (raws : list json) :
  forall n, (exists r, In r raws /\ forall kv, r <> JObj kv) -> load_locs fresh now n raws = None.
Proof.
  induction raws as [|r raws IH]; simpl; intros n (x & Hx & Hno); [contradiction|].
  destruct Hx as [Heq|Hx].
  - rewrite <- Heq in Hno; destruct r; try reflexivity; exfalso; eapply Hno; reflexivity.
  - rewrite (IH (S n)) by (exists x; auto).
    destruct (normalize_location (fresh n) now r); reflexivity.
Qed.

Lemma update_text_keys (key : str) (set : str -> location -> location) (body : list (str * json))
  (l : location) :
  (forall x l, l_id (set x l) = l_id l /\ l_created_at (set x l) = l_created_at l) ->
  l_id (update_text key set body l) = l_id l /\
  l_created_at (update_text key set body l) = l_created_at l.
Proof.
  intro Hs; unfold update_text; destruct (jget key body) as [[]|]; auto.
Qed.

Lemma update_coord_keys (to_float : json -> option json) (key : str)
  (set : json -> location -> location) (body : list (str * json)) (l : location) :
  (forall x l, l_id (set x l) = l_id l /\ l_created_at (set x l) = l_created_at l) ->
  l_id (update_coord to_float key set body l) = l_id l /\
  l_created_at (update_coord to_float key set body l) = l_created_at l.
Proof.
  intro Hs; unfold update_coord; destruct (jget key body) as [[]|]; auto;
    destruct (to_float _); auto.
Qed.

Lemma update_loc_fields_id (to_float : json -> option json) (body : list (str * json)) (l : location) :
  l_id (update_loc_fields to_float body l) = l_id l /\
  l_created_at (update_loc_fields to_float body l) = l_created_at l.
Proof.
  unfold update_loc_fields; cbv zeta.
  set (l1 := match jget (s2l "name") body with
             | Some v => if truthy v && nonempty (strip (py_str v)) then set_l_name (strip (py_str v)) l else l
             | None => l
             end).
  assert (H1 : l_id l1 = l_id l /\ l_created_at l1 = l_created_at l).
  { unfold l1; destruct (jget (s2l "name") body) as [v|]; [|auto].
    destruct (truthy v && nonempty (strip (py_str v))); auto. }
  clearbody l1.
  destruct (update_text_keys (s2l "category") set_l_category body l1 ltac:(split; reflexivity)) as [A2 B2].
  set (l2 := update_text (s2l "category") set_l_category body l1) in *; clearbody l2.
  destruct (update_text_keys (s2l "description") set_l_description body l2 ltac:(split; reflexivity)) as [A3 B3].
  set (l3 := update_text (s2l "description") set_l_description body l2) in *; clearbody l3.
  destruct (update_text_keys (s2l "maps_query") set_l_maps_query body l3 ltac:(split; reflexivity)) as [A4 B4].
  set (l4 := update_text (s2l "maps_query") set_l_maps_query body l3) in *; clearbody l4.
  destruct (update_coord_keys to_float (s2l "latitude") set_l_latitude body l4 ltac:(split; reflexivity)) as [A5 B5].
  set (l5 := update_coord to_float (s2l "latitude") set_l_latitude body l4) in *; clearbody l5.
  destruct (update_coord_keys to_float (s2l "longitude") set_l_longitude body l5 ltac:(split; reflexivity)) as [A6 B6].
  destruct H1; split; congruence.
Qed.

Lemma with_meta_history (r : nat) (msg : str) (st : college_ai) :
  snd (get_response_with_meta r msg st) =
  set_history st (conversation_history st ++ [User msg; Bot (fst (fst (get_response_with_meta r msg st)))]).
Proof.
  destruct (get_response_with_meta_same r msg st) as (H1 & H2 & _).
  rewrite H1, H2; apply get_response_history.
Qed.

Lemma chat_cases (r : nat) (data : json) (st : college_ai) :
  match chat r data st with
  | (ChatOk text source, st') => exists m, m <> [] /\ get_response_with_meta r m st = ((text, source), st')
  | (_, st') => st' = st
  end.
Proof.
  unfold chat.
  destruct (negb (truthy data)); [reflexivity|].
  destruct (json_contains (s2l "message") data) as [[]|]; try reflexivity.
  destruct data; try reflexivity.
  destruct (jget (s2l "message") kv) as [[]|]; try reflexivity.
  cbv zeta; destruct (strip s) as [|c u] eqn:Hs; [reflexivity|]; simpl negb; cbv iota.
  destruct (get_response_with_meta r (c :: u) st) as [[text source] st'] eqn:E.
  exists (c :: u); split; [discriminate | exact E].
Qed.

Lemma length_div2_snoc2 {A} (h : list A) (a b : A) : length (h ++ [a; b]) / 2 = S (length h / 2).
Proof.
  rewrite length_app; simpl length.
  replace (length h + 2) with (length h + 1 * 2) by lia.
  rewrite Nat.div_add by lia; lia.
Qed.

Lemma deref_app_old {A} (d : A) (h : list A) (refs : list nat) (x : list A) :
  Forall (fun i => i < length h) refs ->
  map (fun i => nth i (h ++ x) d) refs = map (fun i => nth i h d) refs.
Proof.
  intro H; apply map_ext_in; intros i Hi; rewrite Forall_forall in H.
  apply app_nth1, H, Hi.
Qed.

Lemma count_true_le {A} (p q : A -> bool) (l : list A) :
  (forall x, p x = true -> q x = true) -> count_true p l <= count_true q l.
Proof.
  intro H; unfold count_true; induction l as [|x l IH]; simpl; [lia|].
  destruct (p x) eqn:E; [rewrite (H x E); simpl; lia|].
  destruct (q x); simpl; lia.
Qed.

Lemma Forall_firstn {A} (P : A -> Prop) (n : nat) (l : list A) :
  Forall P l -> Forall P (firstn n l).
Proof.
  intro H; apply Forall_forall; intros x Hx; rewrite Forall_forall in H.
  apply H, In_firstn with n, Hx.
Qed.

Lemma id_is_true (v : json) (loc_id : str) : id_is v loc_id = true <-> v = JStr loc_id.
Proof.
  destruct v; simpl; split; intro H; try discriminate; try congruence.
  - apply str_eqb_true in H; congruence.
  - apply str_eqb_true; congruence.
Qed.

Lemma Forall_id_is_not_In (loc_id : str) (l : list location) :
  Forall (fun x => id_is (l_id x) loc_id = false) l <-> ~ In (JStr loc_id) (map l_id l).
Proof.
  rewrite Forall_forall; split.
  - intros H Hin; apply in_map_iff in Hin as (x & Hx & Hin).
    specialize (H x Hin); rewrite <- not_true_iff_false, id_is_true in H; contradiction.
  - intros H x Hx; apply not_true_iff_false; rewrite id_is_true; intro Heq;
      apply H, in_map_iff; exists x; auto.
Qed.

Lemma upload_pdf_knowledge_saved (set_order : list str -> list str) (Hord : forall l, Permutation (set_order l) l)
  (extracted filename stem : str) (ft fk : option str) (new_id now : str) (st : store)
  (Hrefs : Forall (fun i => i < length (heap st)) (admin_refs st)) :
  match upload_pdf_knowledge set_order extracted filename stem ft fk new_id now true st with
  | (R200 (Some e), st') =>
      admin_view st' = admin_view st ++ [e] /\ disk st' = admin_view st' /\
      e_id e = new_id /\ e_source_pdf e = Some filename /\ e_title e = title_of ft stem /\
      e_responses e = pdf_responses extracted /\ 1 <= length (e_responses e) <= 10 /\
      Forall (fun s => s <> [] /\ length s <= 800) (e_responses e) /\
      1 <= length (e_keywords e) <= 25 /\ NoDup (e_keywords e)
  | (R400, st') => st' = st
  | _ => False
  end.
Proof.
  pose proof (firstn_le_length 10 (chunk_text (remove_nul extracted) 800)) as Hl10.
  pose proof (pdf_keywords_shape set_order (title_of ft stem) (raw_keywords_of fk) (remove_nul extracted) Hord)
    as [Hk25 Hkd].
  unfold pdf_responses; unfold upload_pdf_knowledge; cbv zeta.
  destruct (firstn 10 (chunk_text (remove_nul extracted) 800)) as [|r rs] eqn:Hr; [reflexivity|].
  destruct (pdf_keywords set_order (title_of ft stem) (raw_keywords_of fk) (remove_nul extracted))
    as [|k ks] eqn:Hk; [reflexivity|].
  unfold save_admin_entries, set_admin, admin_view, deref.
  cbn [heap admin_refs disk e_id e_source_pdf e_title e_responses e_keywords].
  rewrite (deref_snoc no_entry (heap st) (admin_refs st)) by exact Hrefs.
  simpl length in *; repeat split; try reflexivity; try lia.
  - rewrite <- Hr; apply Forall_firstn, chunk_text_sizes.
  - exact Hkd.
Qed.


(** * Claims *)

(** C4: the ranker scans in list order with a strict [>] from a best score of 0:
    either every score is 0 and there is no winner, or the winner [x] has a
    positive score, every entry before it scores strictly less and every entry
    after it scores at most as much (the first maximal entry wins). *)
Theorem rank_first_strict_max {A} (score : A -> nat) (l : list A) :
  match rank score l with
  | (None, s) => s = 0 /\ Forall (fun y => score y = 0) l
  | (Some x, s) =>
      s = score x /\ 0 < s /\
      exists pre post, l = pre ++ x :: post /\
        Forall (fun y => score y < s) pre /\ Forall (fun y => score y <= s) post
  end.
Proof. apply rank_spec. Qed.


(** C2 (amended): the admin score of a query [q] is 3 points per non-empty
    keyword that is a literal substring of the lowercased query (uncapped),
    plus [min(|tokens(q) & tokens(keywords)|, 4)], [min(|tokens(q) & tokens(title)|, 2)]
    and [min(|tokens(q) & tokens(first two responses)|, 5)]. *)
Theorem score_entry_match_four_signals (q : str) (e : entry) :
  score_entry_match (lower q) (uniq (tokenize q)) e =
  3 * count_true (fun k => nonempty k && substr k (lower q)) (e_keywords e)
  + Nat.min (inter_card (tokenize q) (flat_map tokenize (e_keywords e))) 4
  + Nat.min (inter_card (tokenize q) (tokenize (e_title e))) 2
  + Nat.min (inter_card (tokenize q) (flat_map tokenize (firstn 2 (e_responses e)))) 5.
Proof. rewrite score_decomp; unfold token_signals; lia. Qed.

(** C2, counterexample: an entry with the empty keyword (which [add_knowledge]
    accepts) scores 0 against "x"; counting the empty string, a substring of
    every query, would give it 3. *)
Lemma score_empty_keyword_counterexample :
  score_entry_match (lower (s2l "x")) (uniq (tokenize (s2l "x")))
    (mk_entry "e1" "Custom" [[]] [s2l "ok"]) = 0 /\
  spec_score_literal (s2l "x") (mk_entry "e1" "Custom" [[]] [s2l "ok"]) = 3.
Proof. split; vm_compute; reflexivity. Qed.

(** C1 (amended): let the admin ranker's winner [e] (the first entry of
    maximal score, see C4) have a positive score. If [e] has at least one
    response, both [get_response] and [get_response_with_meta] answer with one
    of [e]'s responses (personalised), whatever the built-in table scores. If
    [e] has no response, both fall through to the built-in tier (its winning
    category, or the default answer) with no admin source. *)
Theorem admin_tier_precedence (r : nat) (msg : str) (st : college_ai) (e : entry) (s : nat)
  (Hrank : rank (score_entry_match (lower msg) (uniq (tokenize msg))) (admin_knowledge st) = (Some e, s))
  (Hpos : 0 < s) :
  (e_responses e <> [] ->
     In (choice r (e_responses e)) (e_responses e) /\
     fst (get_response r msg st) = personalize_admin msg (choice r (e_responses e)) /\
     fst (get_response_with_meta r msg st) =
       (personalize_admin msg (choice r (e_responses e)),
        Some {| src_id := e_id e; src_title := e_title e; src_pdf := e_source_pdf e |})) /\
  (e_responses e = [] ->
     fst (get_response r msg st) =
       match builtin_pick st msg with
       | Some (_, c) => personalize_builtin msg (choice r (c_responses c))
       | None => get_default_response r msg
       end /\
     fst (get_response_with_meta r msg st) = (fst (get_response r msg st), None)).
Proof.
  split.
  - intro Hresp.
    pose proof (admin_pick_some msg st e s Hrank Hpos Hresp) as Hp.
    split; [apply choice_In, Hresp|].
    unfold get_response, get_response_with_meta; rewrite Hp; split; reflexivity.
  - intro Hresp.
    assert (Hp : admin_pick st msg = None).
    { unfold admin_pick; rewrite Hrank, Hresp, andb_false_r; reflexivity. }
    split.
    + unfold get_response; rewrite Hp; reflexivity.
    + unfold get_response_with_meta; rewrite Hp; destruct (get_response r msg st); reflexivity.
Qed.

Lemma admin_tier_precedence_witness :
  rank (score_entry_match (lower (s2l "library hours")) (uniq (tokenize (s2l "library hours"))))
       (admin_knowledge (ai_with [lib_entry])) = (Some lib_entry, 6) /\
  0 < 6 /\ e_responses lib_entry <> [] /\
  fst (get_response 0 (s2l "library hours") (ai_with [lib_entry])) =
    personalize_admin (s2l "library hours") (choice 0 (e_responses lib_entry)) /\
  rank (score_entry_match (lower (s2l "library")) (uniq (tokenize (s2l "library"))))
       (admin_knowledge (ai_with [lib_entry_no_responses])) = (Some lib_entry_no_responses, 5) /\
  e_responses lib_entry_no_responses = [] /\
  fst (get_response_with_meta 0 (s2l "library") (ai_with [lib_entry_no_responses])) =
    (fst (get_response 0 (s2l "library") (ai_with [lib_entry_no_responses])), None).
Proof.
  assert (H1 : rank (score_entry_match (lower (s2l "library hours")) (uniq (tokenize (s2l "library hours"))))
       (admin_knowledge (ai_with [lib_entry])) = (Some lib_entry, 6)) by (vm_compute; reflexivity).
  assert (H3 : e_responses lib_entry <> []) by discriminate.
  assert (H4 : rank (score_entry_match (lower (s2l "library")) (uniq (tokenize (s2l "library"))))
       (admin_knowledge (ai_with [lib_entry_no_responses])) = (Some lib_entry_no_responses, 5))
    by (vm_compute; reflexivity).
  split; [exact H1|]; split; [lia|]; split; [exact H3|]; split.
  - exact (proj1 (proj2 (proj1 (admin_tier_precedence 0 (s2l "library hours") (ai_with [lib_entry])
                                  lib_entry 6 H1 ltac:(lia)) H3))).
  - split; [exact H4|]; split; [reflexivity|].
    exact (proj2 (proj2 (admin_tier_precedence 0 (s2l "library") (ai_with [lib_entry_no_responses])
                           lib_entry_no_responses 5 H4 ltac:(lia)) eq_refl)).
Defined.

(** C1, counterexample: an admin entry loaded with no responses scores 5 on
    "library", yet the answer is the built-in library category's. *)
Lemma admin_tier_precedence_counterexample :
  In lib_entry_no_responses (admin_knowledge (ai_with [lib_entry_no_responses])) /\
  score_entry_match (lower (s2l "library")) (uniq (tokenize (s2l "library"))) lib_entry_no_responses = 5 /\
  fst (get_response 0 (s2l "library") (ai_with [lib_entry_no_responses])) =
    choice 0 (c_responses kb_library).
Proof. split; [left; reflexivity|]; split; vm_compute; reflexivity. Qed.

(** C6 (amended): if a query [q'] makes one more non-empty keyword [k] of the
    entry a substring of the lowercased query than [q] does, with the same
    query tokens and the same hits for every other keyword, the score grows
    by 3 for each occurrence of [k] in the entry's keyword list (by exactly 3
    when [k] occurs once). *)
Theorem keyword_hit_adds_three (e : entry) (q q' k : str)
  (Hk : nonempty k = true)
  (Hold : substr k (lower q) = false) (Hnew : substr k (lower q') = true)
  (Hother : forall k', In k' (e_keywords e) -> k' <> k -> substr k' (lower q') = substr k' (lower q))
  (Htok : forall t, In t (tokenize q') <-> In t (tokenize q)) :
  score_entry_match (lower q') (uniq (tokenize q')) e =
  score_entry_match (lower q) (uniq (tokenize q)) e
  + 3 * count_occ (list_eq_dec ascii_dec) (e_keywords e) k.
Proof.
  rewrite !score_decomp, (token_signals_ext q q' e Htok).
  rewrite (count_true_shift (fun k0 => nonempty k0 && substr k0 (lower q))
                            (fun k0 => nonempty k0 && substr k0 (lower q')) k).
  - lia.
  - rewrite Hk, Hold; reflexivity.
  - rewrite Hk, Hnew; reflexivity.
  - intros k' Hin Hne; rewrite Hother by assumption; reflexivity.
Qed.

Lemma keyword_hit_adds_three_witness :
  score_entry_match (lower (s2l "the fee")) (uniq (tokenize (s2l "the fee"))) (fee_entry [s2l "the fee"]) =
  score_entry_match (lower (s2l "fee the")) (uniq (tokenize (s2l "fee the"))) (fee_entry [s2l "the fee"]) + 3.
Proof.
  refine (keyword_hit_adds_three (fee_entry [s2l "the fee"]) (s2l "fee the") (s2l "the fee") (s2l "the fee")
            eq_refl ltac:(vm_compute; reflexivity) ltac:(vm_compute; reflexivity) _ _).
  - intros k' [<-|[]] Hne; congruence.
  - intro t; vm_compute; tauto.
Defined.

(** C6, counterexample: with the keyword "the fee" listed twice (keyword lists
    are not deduplicated), making it a substring adds 6, not 3, while the query
    tokens stay [fee]. *)
Lemma keyword_hit_adds_three_counterexample :
  substr (s2l "the fee") (lower (s2l "fee the")) = false /\
  substr (s2l "the fee") (lower (s2l "the fee")) = true /\
  (forall t, In t (tokenize (s2l "the fee")) <-> In t (tokenize (s2l "fee the"))) /\
  score_entry_match (lower (s2l "fee the")) (uniq (tokenize (s2l "fee the")))
    (fee_entry [s2l "the fee"; s2l "the fee"]) = 1 /\
  score_entry_match (lower (s2l "the fee")) (uniq (tokenize (s2l "the fee")))
    (fee_entry [s2l "the fee"; s2l "the fee"]) = 7.
Proof.
  split; [vm_compute; reflexivity|]; split; [vm_compute; reflexivity|].
  split; [intro t; vm_compute; tauto|]; split; vm_compute; reflexivity.
Qed.

(** C3 (amended): [get_response] and [get_response_with_meta] return the same
    text; a query without '?' gets the drawn response unchanged; in the admin
    branch the follow-up is appended exactly when the query has a '?', the
    response is non-empty and its stripped text does not end in '?'; in the
    built-in branch a query with '?' whose response does not end in '?' (once
    stripped) gets the follow-up appended once; the default branch never
    appends it. *)
Theorem personalization_rule (r : nat) (msg : str) (st : college_ai) :
  let raw := chosen_response r msg st in
  let text := fst (get_response r msg st) in
  fst (fst (get_response_with_meta r msg st)) = text /\
  (char_in qmark msg = false -> text = raw) /\
  (admin_pick st msg <> None ->
     text = if char_in qmark msg && nonempty raw && negb (ends_with_q (strip raw))
            then raw ++ follow_up else raw) /\
  (admin_pick st msg = None -> builtin_pick st msg <> None ->
     char_in qmark msg = true -> ends_with_q (strip raw) = false -> text = raw ++ follow_up) /\
  (admin_pick st msg = None -> builtin_pick st msg = None -> text = raw).
Proof.
  cbv zeta; unfold get_response_with_meta, get_response, chosen_response.
  destruct (admin_pick st msg) as [e|] eqn:Ha.
  - unfold personalize_admin; simpl.
    split; [reflexivity|]; split; [intro Hq; rewrite Hq; reflexivity|].
    split; [intros _; reflexivity|]; split; intros H; congruence.
  - destruct (builtin_pick st msg) as [[n c]|] eqn:Hb; simpl;
      unfold personalize_builtin.
    + split; [reflexivity|]; split; [intro Hq; rewrite Hq; reflexivity|].
      split; [congruence|]; split; [intros _ _ Hq _; rewrite Hq; reflexivity|congruence].
    + split; [reflexivity|]; split; [reflexivity|]; split; [congruence|].
      split; [congruence|reflexivity].
Qed.

(** C3, counterexample: on "parking?" the built-in parking answer already ends
    in '?' and still gains the follow-up; on "asdkjasjkd?" the first default
    answer ends in '.' and gains nothing. *)
Lemma personalization_rule_counterexample :
  char_in qmark (s2l "parking?") = true /\
  ends_with_q (strip (chosen_response 0 (s2l "parking?") (ai_with []))) = true /\
  fst (get_response 0 (s2l "parking?") (ai_with [])) =
    chosen_response 0 (s2l "parking?") (ai_with []) ++ follow_up /\
  char_in qmark (s2l "asdkjasjkd?") = true /\
  ends_with_q (strip (chosen_response 0 (s2l "asdkjasjkd?") (ai_with []))) = false /\
  fst (get_response 0 (s2l "asdkjasjkd?") (ai_with [])) =
    chosen_response 0 (s2l "asdkjasjkd?") (ai_with []).
Proof. repeat split; vm_compute; reflexivity. Qed.

(** C5 (code_bug): a PUT that renames the only entry while the write of
    [knowledge.json] fails answers 500 and leaves the file as it was, but the
    tier in memory already carries the new title: [update_knowledge] edits the
    dictionary shared by the tier and its shallow copy before saving. *)
Theorem update_save_failure_mutates_tier :
  fst (update_knowledge true (s2l "e-lib") [(s2l "title", JStr (s2l "New"))] false st_one) = R500 /\
  disk (snd (update_knowledge true (s2l "e-lib") [(s2l "title", JStr (s2l "New"))] false st_one))
    = disk st_one /\
  admin_view (snd (update_knowledge true (s2l "e-lib") [(s2l "title", JStr (s2l "New"))] false st_one))
    <> admin_view st_one /\
  map e_title (admin_view (snd (update_knowledge true (s2l "e-lib")
                                  [(s2l "title", JStr (s2l "New"))] false st_one)))
    = [s2l "New"].
Proof. split; [vm_compute; reflexivity|]; split; [vm_compute; reflexivity|]; split; [vm_compute; discriminate|vm_compute; reflexivity]. Qed.

(** C10: every keyword of an admin entry equals its own lowercase form after
    [_load_admin_knowledge], and [add_knowledge] and [update_knowledge] keep
    it so for every dictionary of the heap, hence for the tier; responses are
    strings by the type of [entry]. *)
Theorem admin_keywords_lowercase :
  (forall fresh now raws es, load_admin_knowledge fresh now raws = Some es -> Forall lower_ok es) /\
  (forall auth body new_id now ok st, Forall lower_ok (heap st) ->
     Forall lower_ok (heap (snd (add_knowledge auth body new_id now ok st)))) /\
  (forall auth id body ok st, Forall lower_ok (heap st) ->
     Forall lower_ok (heap (snd (update_knowledge auth id body ok st)))) /\
  (forall st, Forall lower_ok (heap st) -> Forall lower_ok (admin_view st)).
Proof.
  split; [intros fresh now raws es; apply load_entries_lower_ok|].
  split; [intros; apply add_heap_lower_ok; assumption|].
  split; [intros; apply update_heap_lower_ok; assumption|].
  exact admin_view_lower_ok.
Qed.

(** C7: the responses of an uploaded document are the first 10 of the
    segments of its paragraphs, in document order; the pieces of [re.split]
    rebuild the text with a blank-line separator ([\n\s*\n]) between two
    consecutive pieces; each paragraph is a
    non-empty stripped piece, cut into segments of exactly 800 characters but
    the last, which has 1 to 800; "Para one.\n\nPara two." gives exactly
    "Para one." and "Para two.". *)
Theorem pdf_chunking (text : str) :
  let clean := remove_nul text in
  pdf_responses text = firstn 10 (flat_map (segments 800) (paragraphs clean)) /\
  length (pdf_responses text) <= 10 /\
  (exists p0 rest, re_split_blank clean = p0 :: map snd rest /\
     Forall (fun sq => blank_sep (fst sq)) rest /\
     clean = p0 ++ concat (map (fun sq => fst sq ++ snd sq) rest)) /\
  Forall (fun p => p <> [] /\ trimmed p /\ full_but_last 800 (segments 800 p) /\
                   concat (segments 800 p) = p) (paragraphs clean) /\
  pdf_responses two_paragraphs = [s2l "Para one."; s2l "Para two."].
Proof.
  cbv zeta; split; [unfold pdf_responses; rewrite chunk_text_flat by lia; reflexivity|].
  split; [unfold pdf_responses; rewrite length_firstn; lia|].
  split; [unfold re_split_blank; apply split_from_spec|].
  split; [|vm_compute; reflexivity].
  apply Forall_forall; intros p Hp; unfold paragraphs in Hp.
  apply filter_In in Hp as [Hp Hne]; apply in_map_iff in Hp as (s & <- & _).
  destruct (segments_spec 800 (strip s)) as (H1 & _ & H3); [lia|].
  split; [destruct (strip s); [discriminate|congruence]|].
  split; [apply trimmed_strip|]; split; assumption.
Qed.

(** C9: for a positive chunk size, the segments of a paragraph are non-empty,
    at most [size] long, and concatenate back to the paragraph; before the
    truncation to 10, the segments of [chunk_text] are those of the paragraphs
    in order and concatenate back to the paragraphs. *)
Theorem chunk_segments_reconstruct (size : nat) (text : str) (Hs : 0 < size) :
  (forall p, concat (segments size p) = p /\
             Forall (fun s => s <> [] /\ length s <= size) (segments size p)) /\
  chunk_text text size = flat_map (segments size) (paragraphs text) /\
  concat (chunk_text text size) = concat (paragraphs text).
Proof.
  split; [intro p; destruct (segments_spec size p Hs) as (H1 & H2 & _); split; assumption|].
  rewrite chunk_text_flat by exact Hs; split; [reflexivity|].
  apply concat_flat_segments, Hs.
Qed.

Lemma chunk_segments_reconstruct_witness :
  0 < 800 /\ concat (chunk_text two_paragraphs 800) = concat (paragraphs two_paragraphs).
Proof.
  split; [lia|].
  exact (proj2 (proj2 (chunk_segments_reconstruct 800 two_paragraphs ltac:(lia)))).
Defined.

(** C8: in document ingestion, the frequency scan counts, in order of first
    occurrence, the tokens longer than 2 characters that are not stop words;
    a token is among the frequency-derived keywords iff it was counted and
    fewer than 10 counted tokens come before it in the order "higher count
    first, ties by first occurrence" ([rank_in]); those keywords are in the
    keyword set; the final keyword list has at most 25 entries, all distinct
    and from the set; and an empty final list makes the upload fail with
    400. *)
Theorem pdf_keyword_selection (set_order : list str -> list str)
  (Hord : forall l, Permutation (set_order l) l) (title raw text : str) :
  let toks := List.filter eligible (tokenize_plain text) in
  let freq := freq_scan (tokenize_plain text) in
  (map fst freq = uniq toks /\ (forall t, lookup t freq = count_occ str_dec toks t)) /\
  (forall t, In t (frequent_top text) <->
             In t toks /\ rank_in freq t (count_occ str_dec toks t) < 10) /\
  incl (frequent_top text) (base_keywords title raw text) /\
  (length (pdf_keywords set_order title raw text) <= 25 /\
   NoDup (pdf_keywords set_order title raw text) /\
   incl (pdf_keywords set_order title raw text) (base_keywords title raw text)) /\
  (forall extracted_text filename stem form_title form_keywords new_id now save_ok st,
     pdf_keywords set_order (title_of form_title stem) (raw_keywords_of form_keywords)
       (remove_nul extracted_text) = [] ->
     fst (upload_pdf_knowledge set_order extracted_text filename stem form_title form_keywords
            new_id now save_ok st) = R400).
Proof.
  intros toks freq.
  assert (Hfreq : freq = fold_left (fun F tok => bump tok F) toks []).
  { unfold freq, freq_scan; apply freq_scan_filter. }
  assert (Hkeys : map fst freq = uniq toks) by (rewrite Hfreq; apply keys_fold).
  assert (Hlk : forall t, lookup t freq = count_occ str_dec toks t).
  { intro t; rewrite Hfreq, lookup_fold; reflexivity. }
  assert (Hnd : NoDup (map fst freq)) by (rewrite Hkeys; apply uniq_NoDup).
  split; [split; assumption|].
  split.
  { intro t; unfold frequent_top; fold freq.
    rewrite (top_by_rank 10 freq t Hnd), Hkeys, uniq_In, Hlk; reflexivity. }
  split.
  { unfold base_keywords; cbv zeta; apply set_update_props. }
  split.
  { unfold pdf_keywords; split; [apply firstn_le_length|]; split.
    - apply NoDup_firstn', NoDup_filter.
      apply Permutation_NoDup with (base_keywords title raw text);
        [apply Permutation_sym, Hord | apply base_keywords_NoDup].
    - intros z Hz; apply In_firstn, filter_In in Hz as [Hz _].
      apply Permutation_in with (set_order (base_keywords title raw text)); [apply Hord | exact Hz]. }
  intros extracted_text filename stem form_title form_keywords new_id now save_ok st H.
  unfold upload_pdf_knowledge; cbv beta zeta.
  destruct (firstn 10 (chunk_text (remove_nul extracted_text) 800)); [reflexivity|].
  rewrite H; reflexivity.
Qed.

Lemma pdf_keyword_selection_witness :
  (forall l : list str, Permutation ((fun l => l) l) l) /\
  In (s2l "fees") (frequent_top fee_text).
Proof.
  split; [intro l; apply Permutation_refl|].
  apply (proj2 (proj1 (proj2 (pdf_keyword_selection (fun l => l) (fun l => Permutation_refl l)
                                  [] [] fee_text)) (s2l "fees"))).
  split; [apply mem_In; vm_compute; reflexivity | apply Nat.ltb_lt; vm_compute; reflexivity].
Defined.

(** * Further properties of the code *)

(** X1: [/api/chat] answers 400 and changes nothing when the body is empty or
    falsy, has no "message", or has a message that is blank once stripped. *)
Theorem chat_rejects_missing_or_blank (r : nat) (data : json) (st : college_ai) :
  (truthy data = false \/
   (exists kv, data = JObj kv /\ jget (s2l "message") kv = None) \/
   (exists kv m, data = JObj kv /\ jget (s2l "message") kv = Some (JStr m) /\ strip m = [])) ->
  chat r data st = (Chat400, st).
Proof.
  intros [H|[(kv & -> & H)|(kv & m & -> & H & Hm)]]; unfold chat.
  - rewrite H; reflexivity.
  - unfold json_contains; rewrite H; destruct (truthy (JObj kv)); reflexivity.
  - unfold json_contains; rewrite H; cbv zeta; rewrite Hm.
    destruct (truthy (JObj kv)); reflexivity.
Qed.

Lemma chat_rejects_missing_or_blank_witness :
  chat 0 (JObj [(s2l "message", JStr (s2l "  "))]) (ai_with []) = (Chat400, ai_with []).
Proof.
  apply chat_rejects_missing_or_blank; right; right.
  exists [(s2l "message", JStr (s2l "  "))], (s2l "  "); split; [reflexivity|]; split; reflexivity.
Defined.

(** X2: a chat message that is a string, non-blank once stripped, is answered
    with [get_response_with_meta] on the stripped message; the history gains
    exactly the user turn and the bot turn holding the reply, and the
    knowledge is unchanged. *)
Theorem chat_answer_history (r : nat) (kv : list (str * json)) (m : str) (st : college_ai)
  (Hm : jget (s2l "message") kv = Some (JStr m)) (Hne : strip m <> []) :
  let '((text, source), st') := get_response_with_meta r (strip m) st in
  chat r (JObj kv) st = (ChatOk text source, st') /\
  conversation_history st' = conversation_history st ++ [User (strip m); Bot text] /\
  admin_knowledge st' = admin_knowledge st /\
  knowledge_base_of st' = knowledge_base_of st.
Proof.
  pose proof (with_meta_history r (strip m) st) as Hh.
  destruct (get_response_with_meta r (strip m) st) as [[text source] st'] eqn:E; simpl in Hh.
  split; [|rewrite Hh; repeat split].
  assert (Htr : truthy (JObj kv) = true) by (destruct kv; [discriminate | reflexivity]).
  unfold chat, json_contains; rewrite Htr, Hm; cbv zeta.
  destruct (strip m) as [|c u]; [contradiction|]; simpl negb; cbv iota.
  rewrite E; reflexivity.
Qed.

Lemma chat_answer_history_witness :
  exists text source st',
    chat 0 (JObj [(s2l "message", JStr (s2l " library? "))]) (ai_with [lib_entry])
    = (ChatOk text source, st') /\
    conversation_history st' = [User (s2l "library?"); Bot text].
Proof.
  pose proof (chat_answer_history 0 [(s2l "message", JStr (s2l " library? "))] (s2l " library? ")
                (ai_with [lib_entry]) eq_refl ltac:(vm_compute; discriminate)) as H.
  destruct (get_response_with_meta 0 (strip (s2l " library? ")) (ai_with [lib_entry]))
    as [[text source] st'] eqn:E.
  exists text, source, st'; destruct H as (H1 & H2 & _).
  split; [exact H1 | rewrite H2; reflexivity].
Defined.

(** X3: [get_stats] counts history entries in pairs: an answered chat adds
    exactly one conversation and makes the bot turn the last activity; a
    rejected chat changes nothing; after [clear_history] there are no
    conversations and no last activity. *)
Theorem stats_after_chat (r : nat) (data : json) (st : college_ai) :
  (forall text source st', chat r data st = (ChatOk text source, st') ->
     fst (get_stats st') = S (fst (get_stats st)) /\ snd (get_stats st') = Some (Bot text)) /\
  (forall st', chat r data st = (Chat400, st') \/ chat r data st = (Chat500, st') -> st' = st) /\
  get_stats (clear_history st) = (0, None).
Proof.
  pose proof (chat_cases r data st) as Hc.
  split; [|split; [|reflexivity]].
  - intros text source st' E; rewrite E in Hc; destruct Hc as (m & _ & Hm).
    pose proof (with_meta_history r m st) as Hh; rewrite Hm in Hh; simpl in Hh; subst st'.
    unfold get_stats; simpl; split; [apply length_div2_snoc2|].
    unfold last_turn; rewrite rev_app_distr; reflexivity.
  - intros st' [E|E]; rewrite E in Hc; exact Hc.
Qed.

(** X4: [_require_admin] takes the header token when it is non-empty and the
    query token otherwise: a request with no token is refused, a wrong
    non-empty header is refused whatever the query says, and with
    [ADMIN_TOKEN] unset only "changeme" is accepted. *)
Theorem require_admin_token_choice (admin_token : str) :
  require_admin admin_token None None = false /\
  require_admin admin_token (Some []) None = false /\
  (forall h q, h <> [] -> require_admin admin_token (Some h) q = str_eqb h admin_token) /\
  (forall q, require_admin admin_token (Some []) q = require_admin admin_token None q) /\
  (forall h q, require_admin (admin_token_of None) h q = true ->
     match h with Some ((_ :: _) as t) => t = s2l "changeme" | _ => q = Some (s2l "changeme") end).
Proof.
  split; [reflexivity|]; split; [reflexivity|]; split; [|split].
  - intros [|c h] q H; [contradiction | reflexivity].
  - reflexivity.
  - intros [[|c h]|] [q|] H; unfold require_admin in H; simpl in H; try discriminate;
      apply str_eqb_true in H; rewrite H; reflexivity.
Qed.

(** X5: [get_response_with_meta] gives the same reply text and the same
    history as [get_response]; it adds a source exactly when an admin entry
    answered. *)
Theorem with_meta_matches_get_response (r : nat) (msg : str) (st : college_ai) :
  fst (fst (get_response_with_meta r msg st)) = fst (get_response r msg st) /\
  snd (get_response_with_meta r msg st) = snd (get_response r msg st) /\
  (snd (fst (get_response_with_meta r msg st)) <> None <-> admin_pick st msg <> None).
Proof.
  destruct (get_response_with_meta_same r msg st) as (H1 & H2 & H3).
  split; [exact H1|]; split; [exact H2|]; rewrite H3; tauto.
Qed.

(** X6: adding admin knowledge with a non-empty [keywords] array and a non-empty
    [responses] array, when the save succeeds, appends one entry to the admin tier
    and writes the new tier to disk; the entry has the fresh id, the keywords
    lowercased, the responses as strings and no [source_pdf]. *)
Theorem add_knowledge_appends (body : list (str * json)) (new_id now : str) (st : store)
  (k : json) (ks : list json) (r0 : json) (rs : list json)
  (Hrefs : Forall (fun i => i < length (heap st)) (admin_refs st))
  (Hk : jget (s2l "keywords") body = Some (JArr (k :: ks)))
  (Hr : jget (s2l "responses") body = Some (JArr (r0 :: rs))) :
  match add_knowledge true body new_id now true st with
  | (R200 (Some e), st') =>
      admin_view st' = admin_view st ++ [e] /\ disk st' = admin_view st' /\
      e_id e = new_id /\ e_keywords e = map (fun x => lower (py_str x)) (k :: ks) /\
      e_responses e = map py_str (r0 :: rs) /\ e_source_pdf e = None
  | _ => False
  end.
Proof.
  unfold add_knowledge, get_or; rewrite Hk, Hr; cbv zeta.
  unfold save_admin_entries, set_admin, admin_view, deref.
  cbn [truthy nonempty_list is_none andb negb heap admin_refs disk fst snd].
  rewrite (deref_snoc no_entry (heap st) (admin_refs st)) by exact Hrefs.
  unfold deref; repeat split; reflexivity.
Qed.

Lemma add_knowledge_appends_witness :
  match add_knowledge true [(s2l "keywords", JArr [JStr (s2l "Gym")]); (s2l "responses", JArr [JStr (s2l "Open at 9.")])]
          (s2l "e-gym") (s2l "2024-01-02") true st_one with
  | (R200 (Some e), st') =>
      admin_view st' = admin_view st_one ++ [e] /\ disk st' = admin_view st' /\
      e_id e = s2l "e-gym" /\ e_keywords e = map (fun x => lower (py_str x)) [JStr (s2l "Gym")] /\
      e_responses e = map py_str [JStr (s2l "Open at 9.")] /\ e_source_pdf e = None
  | _ => False
  end.
Proof.
  apply (add_knowledge_appends [(s2l "keywords", JArr [JStr (s2l "Gym")]); (s2l "responses", JArr [JStr (s2l "Open at 9.")])]
           (s2l "e-gym") (s2l "2024-01-02") st_one (JStr (s2l "Gym")) [] (JStr (s2l "Open at 9.")) []).
  - constructor; [simpl; lia | constructor].
  - reflexivity.
  - reflexivity.
Defined.

(** X7: adding admin knowledge is refused with 400, leaving the store as it was,
    when [keywords] is missing, an empty array or a string, or when neither
    [responses] nor [response] is given. *)
Theorem add_knowledge_rejects (body : list (str * json)) (new_id now : str) (ok : bool) (st : store) :
  ((jget (s2l "keywords") body = None \/ jget (s2l "keywords") body = Some (JArr []) \/
    exists s, jget (s2l "keywords") body = Some (JStr s)) \/
   (jget (s2l "responses") body = None /\ jget (s2l "response") body = None)) ->
  add_knowledge true body new_id now ok st = (R400, st).
Proof.
  unfold add_knowledge, get_or; cbv zeta; cbn [negb].
  intros [[H|[H|(s & H)]]|[H1 H2]].
  - rewrite H; reflexivity.
  - rewrite H; reflexivity.
  - rewrite H; destruct (truthy (JStr s)); reflexivity.
  - rewrite H1, H2; cbn [is_none negb andb].
    destruct (jget (s2l "keywords") body) as [v|]; [|reflexivity].
    destruct (truthy v); [|reflexivity].
    destruct v as [| | | |[|x xs]|]; reflexivity.
Qed.

Lemma add_knowledge_rejects_witness :
  add_knowledge true [(s2l "keywords", JStr (s2l "gym"))] (s2l "e-gym") (s2l "2024-01-02") true st_one
  = (R400, st_one).
Proof.
  apply add_knowledge_rejects; left; right; right; exists (s2l "gym"); reflexivity.
Defined.

(** X8: when [responses] is absent, a non-null [response] value acts exactly as
    a one-element [responses] array holding it. *)
Theorem add_knowledge_response_fallback (auth : bool) (body : list (str * json)) (v : json)
  (new_id now : str) (ok : bool) (st : store)
  (Hrs : jget (s2l "responses") body = None) (Hr : jget (s2l "response") body = Some v)
  (Hv : v <> JNull) :
  add_knowledge auth body new_id now ok st
  = add_knowledge auth ((s2l "responses", JArr [v]) :: body) new_id now ok st.
Proof.
  unfold add_knowledge, get_or.
  replace (jget (s2l "keywords") ((s2l "responses", JArr [v]) :: body)) with (jget (s2l "keywords") body)
    by reflexivity.
  replace (jget (s2l "title") ((s2l "responses", JArr [v]) :: body)) with (jget (s2l "title") body)
    by reflexivity.
  replace (jget (s2l "response") ((s2l "responses", JArr [v]) :: body)) with (jget (s2l "response") body)
    by reflexivity.
  replace (jget (s2l "responses") ((s2l "responses", JArr [v]) :: body)) with (Some (JArr [v]))
    by reflexivity.
  rewrite Hrs, Hr.
  assert (Hn : is_none (Some v) = false) by (destruct v; [contradiction|reflexivity..]).
  simpl is_none at 1; rewrite Hn; reflexivity.
Qed.

Lemma add_knowledge_response_fallback_witness :
  add_knowledge true [(s2l "keywords", JArr [JStr (s2l "gym")]); (s2l "response", JStr (s2l "Open."))]
    (s2l "e-gym") (s2l "2024-01-02") true st_one
  = add_knowledge true [(s2l "responses", JArr [JStr (s2l "Open.")]);
                        (s2l "keywords", JArr [JStr (s2l "gym")]); (s2l "response", JStr (s2l "Open."))]
      (s2l "e-gym") (s2l "2024-01-02") true st_one.
Proof.
  apply add_knowledge_response_fallback; [reflexivity | reflexivity | discriminate].
Defined.

(** X9: updating admin knowledge answers 404 when no entry has the id; otherwise
    it edits the first entry with that id in place in the live tier, keeps
    every id, and writes the tier to disk only when the save succeeds (on a
    failed save the live tier is edited all the same). *)
Theorem update_knowledge_in_place (id : str) (body : list (str * json)) (ok : bool) (st : store)
  (Hst : refs_ok (admin_refs st) (length (heap st))) :
  (~ In id (map e_id (admin_view st)) -> update_knowledge true id body ok st = (R404, st)) /\
  (In id (map e_id (admin_view st)) ->
     let '(rep, st') := update_knowledge true id body ok st in
     admin_view st' = replace_first (fun e => str_eqb (e_id e) id) (update_fields body) (admin_view st) /\
     map e_id (admin_view st') = map e_id (admin_view st) /\
     (if ok then disk st' = admin_view st' /\ exists e, rep = R200 (Some e)
      else disk st' = disk st /\ rep = R500)).
Proof.
  unfold update_knowledge; cbn [negb]; rewrite find_ref_first.
  destruct (first_ref no_entry (fun e => str_eqb (e_id e) id) (heap st) (admin_refs st)) as [i|] eqn:F.
  - destruct (first_ref_In _ _ _ _ _ F) as [Hi Hp].
    split.
    + intro Hn; exfalso; apply Hn, in_map_iff; exists (nth i (heap st) no_entry).
      split; [apply str_eqb_true, Hp|]; unfold admin_view, deref; apply (in_map (fun j => nth j (heap st) no_entry)), Hi.
    + intros _.
      pose proof (deref_replace_first no_entry (fun e => str_eqb (e_id e) id) (update_fields body)
                    (heap st) (admin_refs st) i Hst F) as Hd.
      assert (Hv : admin_view {| heap := set_nth i (update_fields body (nth i (heap st) no_entry)) (heap st);
                                admin_refs := admin_refs st; disk := disk st |}
                   = replace_first (fun e => str_eqb (e_id e) id) (update_fields body) (admin_view st))
        by exact Hd.
      destruct ok; unfold save_admin_entries; cbv iota beta.
      * unfold set_admin; split; [exact Hv|]; split.
        -- change (map e_id (admin_view {| heap := set_nth i (update_fields body (nth i (heap st) no_entry)) (heap st);
                                admin_refs := admin_refs st; disk := disk st |}) = map e_id (admin_view st)).
           rewrite Hv; apply replace_first_map, update_fields_id.
        -- split; [reflexivity | eexists; reflexivity].
      * split; [exact Hv|]; split; [|split; reflexivity].
        rewrite Hv; apply replace_first_map, update_fields_id.
  - apply first_ref_None, Forall_false_not_In in F.
    split; [reflexivity | intro Hin; contradiction].
Qed.

Lemma update_knowledge_in_place_witness :
  (~ In (s2l "e-lib") (map e_id (admin_view st_one)) ->
     update_knowledge true (s2l "e-lib") [(s2l "title", JStr (s2l "Books"))] false st_one = (R404, st_one)) /\
  (In (s2l "e-lib") (map e_id (admin_view st_one)) ->
     let '(rep, st') := update_knowledge true (s2l "e-lib") [(s2l "title", JStr (s2l "Books"))] false st_one in
     admin_view st' = replace_first (fun e => str_eqb (e_id e) (s2l "e-lib"))
                        (update_fields [(s2l "title", JStr (s2l "Books"))]) (admin_view st_one) /\
     map e_id (admin_view st') = map e_id (admin_view st_one) /\
     disk st' = disk st_one /\ rep = R500).
Proof.
  apply (update_knowledge_in_place (s2l "e-lib") [(s2l "title", JStr (s2l "Books"))] false st_one).
  split; [constructor; [intros [] | constructor] | constructor; [simpl; lia | constructor]].
Defined.

(** X10: deleting admin knowledge answers 404, store untouched, when no entry has
    the id; otherwise a successful save drops every entry with that id from the
    tier and the disk, and a failed save answers 500 with the store untouched. *)
Theorem delete_knowledge_filters (id : str) (ok : bool) (st : store) :
  (~ In id (map e_id (admin_view st)) -> delete_knowledge true id ok st = (R404, st)) /\
  (In id (map e_id (admin_view st)) ->
     let '(rep, st') := delete_knowledge true id ok st in
     if ok then rep = R200 None /\
                admin_view st' = List.filter (fun e => negb (str_eqb (e_id e) id)) (admin_view st) /\
                disk st' = admin_view st'
     else rep = R500 /\ st' = st).
Proof.
  unfold delete_knowledge; cbn [negb].
  set (tmp := List.filter (fun i => negb (str_eqb (e_id (nth i (heap st) no_entry)) id)) (admin_refs st)).
  assert (Hmap : map (fun i => nth i (heap st) no_entry) tmp
                 = List.filter (fun e => negb (str_eqb (e_id e) id)) (admin_view st)).
  { unfold tmp, admin_view, deref.
    apply (map_filter_comm (fun i => nth i (heap st) no_entry) (fun e => negb (str_eqb (e_id e) id))). }
  assert (Hlen : Nat.eqb (length tmp) (length (admin_refs st)) = true <-> ~ In id (map e_id (admin_view st))).
  { rewrite Nat.eqb_eq, <- Forall_false_not_In; unfold tmp; rewrite filter_length_eq.
    unfold admin_view, deref; rewrite Forall_map.
    split; intro H; eapply Forall_impl; try exact H; intros j Hj; simpl in *;
      [apply negb_true_iff, Hj | apply negb_true_iff; exact Hj]. }
  split.
  - intro Hn; apply Hlen in Hn; rewrite Hn; reflexivity.
  - intro Hin; destruct (Nat.eqb (length tmp) (length (admin_refs st))) eqn:E.
    + exfalso; apply (proj1 Hlen eq_refl), Hin.
    + destruct ok; unfold save_admin_entries; cbv iota beta; [|split; reflexivity].
      split; [reflexivity|]; split; [exact Hmap | reflexivity].
Qed.

(** X11: the score of an admin entry is three points per keyword found in the
    message plus at most 11 points from the three token overlaps, so it is at
    most three times the number of non-empty keywords plus 11. *)
Theorem score_entry_bounds (q : str) (toks : list str) (e : entry) :
  3 * count_true (fun k => nonempty k && substr k q) (e_keywords e) <= score_entry_match q toks e /\
  score_entry_match q toks e <= 3 * count_true (fun k => nonempty k && substr k q) (e_keywords e) + 11 /\
  score_entry_match q toks e <= 3 * count_true nonempty (e_keywords e) + 11.
Proof.
  pose proof (count_true_le (fun k => nonempty k && substr k q) nonempty (e_keywords e)) as Hle.
  assert (H : count_true (fun k => nonempty k && substr k q) (e_keywords e)
              <= count_true nonempty (e_keywords e)).
  { apply Hle; intros x Hx; apply andb_true_iff in Hx; apply Hx. }
  unfold score_entry_match; cbv zeta; lia.
Qed.

(** X12: every token [_tokenize] returns is non-empty, is not a stopword, and is
    made only of lowercase ASCII letters and digits. *)
Theorem tokenize_tokens (text t : str) :
  In t (tokenize text) ->
  t <> [] /\ mem t stopwords = false /\
  Forall (fun c => in_range 97 122 c || in_range 48 57 c = true) t.
Proof.
  unfold tokenize; intro H; apply filter_In in H as [Hin Hf].
  apply andb_true_iff in Hf as [Hne Hs]; apply negb_true_iff in Hs.
  split; [destruct t; [discriminate|congruence]|split; [exact Hs|]].
  pose proof (alnum_runs_chars (lower text) [] t Hin (Forall_nil _)) as Hc.
  apply Forall_forall; intros c Hc'; rewrite Forall_forall in Hc.
  destruct (Hc c Hc') as [Ha [[]|Hl]].
  unfold lower in Hl; apply in_map_iff in Hl as (d & <- & _).
  unfold is_alnum in Ha; rewrite lower_char_not_upper, orb_false_r in Ha; exact Ha.
Qed.

Lemma tokenize_tokens_witness :
  In (s2l "fees") (tokenize (s2l "What are the FEES?")) /\
  (s2l "fees" <> [] /\ mem (s2l "fees") stopwords = false /\
   Forall (fun c => in_range 97 122 c || in_range 48 57 c = true) (s2l "fees")).
Proof.
  split; [vm_compute; tauto|].
  apply (tokenize_tokens (s2l "What are the FEES?")); vm_compute; tauto.
Defined.

(** X13: loading [knowledge.json] yields one entry per stored item and sets
    every [source_pdf] to none, so the PDF origin of an entry is lost on
    restart; an item that is not an object makes loading raise. *)
Theorem load_admin_knowledge_shape (fresh : nat -> str) (now : str) (raws : list json) :
  (forall es, load_admin_knowledge fresh now raws = Some es ->
     length es = length raws /\ Forall (fun e => e_source_pdf e = None) es) /\
  ((exists r, In r raws /\ forall kv, r <> JObj kv) -> load_admin_knowledge fresh now raws = None).
Proof.
  split; [apply load_entries_shape | apply load_entries_non_object].
Qed.

(** X14: an authorized PDF upload whose knowledge save succeeds answers 200
    with one entry appended to the admin tier and the disk, whose [source_pdf]
    is the secured file name, whose title defaults to that name without its
    extension, whose responses are 1 to 10 non-empty chunks of at most 800
    characters of the joined page texts and whose keywords are 1 to 25
    distinct strings; or it answers 400 with the store unchanged; or it
    answers 500 with the store unchanged, and then the data directory, the
    file write or the PDF reading failed. *)
Theorem upload_pdf_request_saved (set_order : list str -> list str) (Hord : forall l, Permutation (set_order l) l)
  (dir_ok : bool) (file : option str) (secure : str -> str) (file_ok : bool) (pages : option (list str))
  (ft fk : option str) (new_id now : str) (st : store)
  (Hrefs : Forall (fun i => i < length (heap st)) (admin_refs st)) :
  match upload_pdf_request set_order true dir_ok file secure file_ok pages ft fk new_id now true st with
  | (R200 (Some e), st') =>
      exists fname ps,
        file = Some fname /\ pages = Some ps /\
        admin_view st' = admin_view st ++ [e] /\ disk st' = admin_view st' /\
        e_id e = new_id /\ e_source_pdf e = Some (secure fname) /\
        e_title e = title_of ft (splitext_root (secure fname)) /\
        e_responses e = pdf_responses (join [nl; nl] (List.filter nonempty ps)) /\
        1 <= length (e_responses e) <= 10 /\
        Forall (fun s => s <> [] /\ length s <= 800) (e_responses e) /\
        1 <= length (e_keywords e) <= 25 /\ NoDup (e_keywords e)
  | (R400, st') => st' = st
  | (R500, st') => st' = st /\ (dir_ok = false \/ file_ok = false \/ pages = None)
  | _ => False
  end.
Proof.
  unfold upload_pdf_request; cbn [negb].
  destruct dir_ok; [|cbn; auto].
  destruct file as [fname|]; [|reflexivity].
  destruct (nonempty fname); [|reflexivity].
  destruct (ends_with (s2l ".pdf") (lower fname)); [|reflexivity].
  destruct file_ok; [|cbn; auto].
  destruct pages as [ps|]; [|cbn; auto].
  cbn [negb].
  pose proof (upload_pdf_knowledge_saved set_order Hord (join [nl; nl] (List.filter nonempty ps))
                (secure fname) (splitext_root (secure fname)) ft fk new_id now st Hrefs) as H.
  destruct (upload_pdf_knowledge set_order (join [nl; nl] (List.filter nonempty ps)) (secure fname)
              (splitext_root (secure fname)) ft fk new_id now true st) as [[[e|]| | | |] st'];
    try contradiction; [|exact H].
  exists fname, ps; split; [reflexivity|]; split; [reflexivity|]; exact H.
Qed.

Lemma upload_pdf_request_saved_witness :
  match upload_pdf_request (fun l => l) true true (Some (s2l "Fees.PDF")) (fun s => s) true
          (Some [fee_text; []]) None None (s2l "e-pdf") (s2l "2024-01-02") true st_one with
  | (R200 (Some e), st') =>
      exists fname ps,
        Some (s2l "Fees.PDF") = Some fname /\ Some [fee_text; []] = Some ps /\
        admin_view st' = admin_view st_one ++ [e] /\ disk st' = admin_view st' /\
        e_id e = s2l "e-pdf" /\ e_source_pdf e = Some fname /\
        e_title e = title_of None (splitext_root fname) /\
        e_responses e = pdf_responses (join [nl; nl] (List.filter nonempty ps)) /\
        1 <= length (e_responses e) <= 10 /\
        Forall (fun s => s <> [] /\ length s <= 800) (e_responses e) /\
        1 <= length (e_keywords e) <= 25 /\ NoDup (e_keywords e)
  | (R400, st') => st' = st_one
  | (R500, st') => st' = st_one /\ (true = false \/ true = false \/ Some [fee_text; []] = None)
  | _ => False
  end.
Proof.
  apply (upload_pdf_request_saved (fun l => l) (fun l => Permutation_refl l) true (Some (s2l "Fees.PDF"))
           (fun s => s) true (Some [fee_text; []]) None None (s2l "e-pdf") (s2l "2024-01-02") st_one).
  constructor; [simpl; lia | constructor].
Defined.
(** X15: a PDF upload whose save fails changes neither the admin tier nor the
    file on disk, and answers 400 or 500. *)
Theorem upload_pdf_failed_save (set_order : list str -> list str)
  (extracted filename stem : str) (ft fk : option str) (new_id now : str) (st : store)
  (Hrefs : Forall (fun i => i < length (heap st)) (admin_refs st)) :
  let '(rep, st') := upload_pdf_knowledge set_order extracted filename stem ft fk new_id now false st in
  (rep = R400 \/ rep = R500) /\ admin_view st' = admin_view st /\ disk st' = disk st.
Proof.
  unfold upload_pdf_knowledge; cbv zeta.
  destruct (firstn 10 (chunk_text (remove_nul extracted) 800)) as [|r rs]; [auto|].
  destruct (pdf_keywords set_order (title_of ft stem) (raw_keywords_of fk) (remove_nul extracted))
    as [|k ks]; [auto|].
  unfold save_admin_entries, admin_view, deref; cbn [heap admin_refs disk].
  rewrite (deref_app_old no_entry (heap st) (admin_refs st)) by exact Hrefs; auto.
Qed.

Lemma upload_pdf_failed_save_witness :
  let '(rep, st') := upload_pdf_knowledge (fun l => l) fee_text (s2l "fees.pdf") (s2l "fees") None None
                       (s2l "e-pdf") (s2l "2024-01-02") false st_one in
  (rep = R400 \/ rep = R500) /\ admin_view st' = admin_view st_one /\ disk st' = disk st_one.
Proof.
  apply (upload_pdf_failed_save (fun l => l) fee_text (s2l "fees.pdf") (s2l "fees") None None
           (s2l "e-pdf") (s2l "2024-01-02") st_one).
  constructor; [simpl; lia | constructor].
Defined.

(** X16: a PDF whose extracted text holds only whitespace and NUL characters is
    refused with 400 and the store is unchanged. *)
Theorem upload_pdf_blank_text (set_order : list str -> list str)
  (extracted filename stem : str) (ft fk : option str) (new_id now : str) (ok : bool) (st : store)
  (Hblank : Forall (fun c => is_space c || Nat.eqb (nat_of_ascii c) 0 = true) extracted) :
  upload_pdf_knowledge set_order extracted filename stem ft fk new_id now ok st = (R400, st).
Proof.
  assert (Hs : Forall (fun c => is_space c = true) (remove_nul extracted)).
  { apply Forall_forall; intros c Hc; unfold remove_nul in Hc; apply filter_In in Hc as [Hc Hn].
    rewrite Forall_forall in Hblank; specialize (Hblank c Hc).
    apply negb_true_iff in Hn; rewrite Hn, orb_false_r in Hblank; exact Hblank. }
  unfold upload_pdf_knowledge, chunk_text; cbv zeta.
  rewrite (paragraphs_blank _ Hs); reflexivity.
Qed.

Lemma upload_pdf_blank_text_witness :
  upload_pdf_knowledge (fun l => l) [ascii_of_nat 32; ascii_of_nat 10; ascii_of_nat 0; ascii_of_nat 9]
    (s2l "scan.pdf") (s2l "scan") None None (s2l "e-pdf") (s2l "2024-01-02") true st_one
  = (R400, st_one).
Proof.
  apply upload_pdf_blank_text; repeat constructor.
Defined.

(** X17: when [locations.json] holds an object whose [locations] is an array,
    loading yields one location per item, each with a non-empty name and
    category; an item that is not an object makes loading raise. *)
Theorem load_locations_shape (fresh : nat -> str) (now : str) (kv : list (str * json)) (raws : list json)
  (H : jget (s2l "locations") kv = Some (JArr raws)) :
  (forall ls, load_locations fresh now (JObj kv) = Some ls ->
     length ls = length raws /\ Forall (fun l => l_name l <> [] /\ l_category l <> []) ls) /\
  ((exists r, In r raws /\ forall kv', r <> JObj kv') -> load_locations fresh now (JObj kv) = None).
Proof.
  assert (Hl : load_locations fresh now (JObj kv) = load_locs fresh now 0 raws).
  { unfold load_locations, get_or; rewrite H; destruct raws; reflexivity. }
  rewrite Hl; split; [apply load_locs_shape | apply load_locs_non_object].
Qed.

Lemma load_locations_shape_witness :
  let kv := [(s2l "locations", JArr [JObj [(s2l "name", JStr [])]; JObj []])] in
  (forall ls, load_locations (fun _ => s2l "fresh") (s2l "now") (JObj kv) = Some ls ->
     length ls = 2 /\ Forall (fun l => l_name l <> [] /\ l_category l <> []) ls) /\
  ((exists r, In r [JObj [(s2l "name", JStr [])]; JObj []] /\ forall kv', r <> JObj kv') ->
     load_locations (fun _ => s2l "fresh") (s2l "now") (JObj kv) = None).
Proof.
  apply (load_locations_shape (fun _ => s2l "fresh") (s2l "now")
           [(s2l "locations", JArr [JObj [(s2l "name", JStr [])]; JObj []])]
           [JObj [(s2l "name", JStr [])]; JObj []]).
  reflexivity.
Defined.

(** X18: adding a location with a blank name answers 400 with the store
    unchanged; otherwise a successful save appends one location, with the
    fresh id and the stripped name, to the store and the disk, and a failed
    save answers 500 with the store and the disk unchanged. *)
Theorem add_location_behaviour (to_float : json -> option json) (body : list (str * json))
  (new_id now : str) (ok : bool) (st : loc_store)
  (Hrefs : Forall (fun i => i < length (lheap st)) (lrefs st)) :
  (strip (py_str (get_or (s2l "name") body (JStr []))) = [] ->
     add_location to_float true body new_id now ok st = (L400, st)) /\
  (strip (py_str (get_or (s2l "name") body (JStr []))) <> [] ->
     let '(rep, st') := add_location to_float true body new_id now ok st in
     if ok then exists l, rep = L200 (Some l) /\ loc_view st' = loc_view st ++ [l] /\
                  ldisk st' = loc_view st' /\ l_id l = JStr new_id /\ l_created_at l = JStr now /\
                  l_name l = strip (py_str (get_or (s2l "name") body (JStr [])))
     else rep = L500 /\ loc_view st' = loc_view st /\ ldisk st' = ldisk st).
Proof.
  unfold add_location; cbv zeta; cbn [negb].
  split.
  - intro Hn; rewrite Hn; reflexivity.
  - intro Hn; destruct (strip (py_str (get_or (s2l "name") body (JStr [])))) as [|c cs];
      [contradiction|].
    cbn [nonempty negb].
    destruct ok; unfold save_locations, set_locs, loc_view; cbn [lheap lrefs ldisk].
    + eexists; split; [reflexivity|].
      rewrite (deref_snoc no_location (lheap st) (lrefs st)) by exact Hrefs.
      repeat split; reflexivity.
    + rewrite (deref_app_old no_location (lheap st) (lrefs st)) by exact Hrefs.
      repeat split; reflexivity.
Qed.

Lemma add_location_behaviour_witness :
  (strip (py_str (get_or (s2l "name") [(s2l "name", JStr (s2l " Gym "))] (JStr []))) = [] ->
     add_location no_float true [(s2l "name", JStr (s2l " Gym "))] (s2l "g1") (s2l "now") true locs_one
     = (L400, locs_one)) /\
  (strip (py_str (get_or (s2l "name") [(s2l "name", JStr (s2l " Gym "))] (JStr []))) <> [] ->
     let '(rep, st') := add_location no_float true [(s2l "name", JStr (s2l " Gym "))] (s2l "g1") (s2l "now") true locs_one in
     exists l, rep = L200 (Some l) /\ loc_view st' = loc_view locs_one ++ [l] /\
       ldisk st' = loc_view st' /\ l_id l = JStr (s2l "g1") /\ l_created_at l = JStr (s2l "now") /\
       l_name l = strip (py_str (get_or (s2l "name") [(s2l "name", JStr (s2l " Gym "))] (JStr [])))).
Proof.
  apply (add_location_behaviour no_float [(s2l "name", JStr (s2l " Gym "))] (s2l "g1") (s2l "now") true locs_one).
  constructor; [simpl; lia | constructor].
Defined.

(** X19: updating a location answers 404 when no location has the id as a
    string; otherwise it edits the first such location in place in the live
    store, keeps every id and creation time, and writes the store to disk only
    when the save succeeds (on a failed save the live store is edited all the
    same). *)
Theorem update_location_in_place (to_float : json -> option json) (loc_id : str)
  (body : list (str * json)) (ok : bool) (st : loc_store)
  (Hst : refs_ok (lrefs st) (length (lheap st))) :
  (~ In (JStr loc_id) (map l_id (loc_view st)) ->
     update_location to_float true loc_id body ok st = (L404, st)) /\
  (In (JStr loc_id) (map l_id (loc_view st)) ->
     let '(rep, st') := update_location to_float true loc_id body ok st in
     loc_view st' = replace_first (fun l => id_is (l_id l) loc_id) (update_loc_fields to_float body) (loc_view st) /\
     map l_id (loc_view st') = map l_id (loc_view st) /\
     map l_created_at (loc_view st') = map l_created_at (loc_view st) /\
     (if ok then ldisk st' = loc_view st' /\ exists l, rep = L200 (Some l)
      else ldisk st' = ldisk st /\ rep = L500)).
Proof.
  unfold update_location; cbn [negb]; rewrite find_loc_first.
  destruct (first_ref no_location (fun l => id_is (l_id l) loc_id) (lheap st) (lrefs st)) as [i|] eqn:F.
  - destruct (first_ref_In _ _ _ _ _ F) as [Hi Hp].
    split.
    + intro Hn; exfalso; apply Hn, in_map_iff; exists (nth i (lheap st) no_location).
      split; [apply id_is_true, Hp|]; unfold loc_view;
        apply (in_map (fun j => nth j (lheap st) no_location)), Hi.
    + intros _.
      pose proof (deref_replace_first no_location (fun l => id_is (l_id l) loc_id)
                    (update_loc_fields to_float body) (lheap st) (lrefs st) i Hst F) as Hd.
      set (st1 := {| lheap := set_nth i (update_loc_fields to_float body (nth i (lheap st) no_location)) (lheap st);
                     lrefs := lrefs st; ldisk := ldisk st |}).
      assert (Hv : loc_view st1
                   = replace_first (fun l => id_is (l_id l) loc_id) (update_loc_fields to_float body) (loc_view st))
        by exact Hd.
      assert (Hid : map l_id (loc_view st1) = map l_id (loc_view st)).
      { rewrite Hv; apply replace_first_map; intro x; apply update_loc_fields_id. }
      assert (Hca : map l_created_at (loc_view st1) = map l_created_at (loc_view st)).
      { rewrite Hv; apply replace_first_map; intro x; apply update_loc_fields_id. }
      destruct ok; unfold save_locations; cbv iota beta.
      * split; [exact Hv|]; split; [exact Hid|]; split; [exact Hca|].
        split; [reflexivity | eexists; reflexivity].
      * split; [exact Hv|]; split; [exact Hid|]; split; [exact Hca|]; split; reflexivity.
  - apply first_ref_None, Forall_id_is_not_In in F.
    split; [reflexivity | intro Hin; contradiction].
Qed.

Lemma update_location_in_place_witness :
  (~ In (JStr (s2l "h1")) (map l_id (loc_view locs_one)) ->
     update_location no_float true (s2l "h1") [(s2l "name", JStr (s2l "Hall B"))] false locs_one = (L404, locs_one)) /\
  (In (JStr (s2l "h1")) (map l_id (loc_view locs_one)) ->
     let '(rep, st') := update_location no_float true (s2l "h1") [(s2l "name", JStr (s2l "Hall B"))] false locs_one in
     loc_view st' = replace_first (fun l => id_is (l_id l) (s2l "h1"))
                      (update_loc_fields no_float [(s2l "name", JStr (s2l "Hall B"))]) (loc_view locs_one) /\
     map l_id (loc_view st') = map l_id (loc_view locs_one) /\
     map l_created_at (loc_view st') = map l_created_at (loc_view locs_one) /\
     ldisk st' = ldisk locs_one /\ rep = L500).
Proof.
  apply (update_location_in_place no_float (s2l "h1") [(s2l "name", JStr (s2l "Hall B"))] false locs_one).
  split; [constructor; [intros [] | constructor] | constructor; [simpl; lia | constructor]].
Defined.

(** X20: deleting a location answers 404, store untouched, when no location has
    the id as a string; otherwise a successful save drops every location with
    that id from the store and the disk, and a failed save answers 500 with
    the store untouched. *)
Theorem delete_location_filters (loc_id : str) (ok : bool) (st : loc_store) :
  (~ In (JStr loc_id) (map l_id (loc_view st)) -> delete_location true loc_id ok st = (L404, st)) /\
  (In (JStr loc_id) (map l_id (loc_view st)) ->
     let '(rep, st') := delete_location true loc_id ok st in
     if ok then rep = L200 None /\
                loc_view st' = List.filter (fun l => negb (id_is (l_id l) loc_id)) (loc_view st) /\
                ldisk st' = loc_view st'
     else rep = L500 /\ st' = st).
Proof.
  unfold delete_location; cbn [negb].
  set (tmp := List.filter (fun i => negb (id_is (l_id (nth i (lheap st) no_location)) loc_id)) (lrefs st)).
  assert (Hmap : map (fun i => nth i (lheap st) no_location) tmp
                 = List.filter (fun l => negb (id_is (l_id l) loc_id)) (loc_view st)).
  { unfold tmp, loc_view.
    apply (map_filter_comm (fun i => nth i (lheap st) no_location) (fun l => negb (id_is (l_id l) loc_id))). }
  assert (Hlen : Nat.eqb (length tmp) (length (lrefs st)) = true <-> ~ In (JStr loc_id) (map l_id (loc_view st))).
  { rewrite Nat.eqb_eq, <- Forall_id_is_not_In; unfold tmp; rewrite filter_length_eq.
    unfold loc_view; rewrite Forall_map.
    split; intro H; eapply Forall_impl; try exact H; intros j Hj; simpl in *;
      [apply negb_true_iff, Hj | apply negb_true_iff; exact Hj]. }
  split.
  - intro Hn; apply Hlen in Hn; rewrite Hn; reflexivity.
  - intro Hin; destruct (Nat.eqb (length tmp) (length (lrefs st))) eqn:E.
    + exfalso; apply (proj1 Hlen eq_refl), Hin.
    + destruct ok; unfold save_locations; cbv iota beta; [|split; reflexivity].
      split; [reflexivity|]; split; [exact Hmap | reflexivity].
Qed.

